(** * GITCHEAT.py: the safe delete and safe promote workflows

    A shallow embedding of the decision logic of [src/GITCHEAT.py]: the
    confirmation prompts ([confirm], [typed_confirm]), the repository
    queries, the backup tagger ([create_backup_tag]), the audit logger
    ([log_action]) and the two guarded workflows ([delete_branch],
    [push_staging_to_main]).

    The program talks to three things it does not control: the operator at
    the terminal, the [git] executable, and the clock.  A run is therefore
    modelled in a state-and-exception monad over a [world] that holds the
    lines the operator will still type and the list of everything the
    program has done so far (prints, prompts with their answers, [git]
    invocations with their results, audit-log writes).  What [git] answers
    and what the clock shows are arbitrary functions of that history, so a
    statement proved for every such function holds whatever the repository
    does between two queries.

    A Python [str] is a Rocq string holding its UTF-8 bytes.  The text
    methods used by the program ([strip], [split], [splitlines]) follow
    Python on the whole of its whitespace and of its line boundaries, the
    characters outside ASCII among them; [lower] changes the letters A to
    Z.  The message literals are copied from the source file byte for
    byte. *)

From Stdlib Require Import String Ascii ZArith List Lia.
From stdpp Require Import base gmap strings list.
Import ListNotations.
Open Scope string_scope.

(* ===================================================================== *)
(** * Python text primitives *)
(* ===================================================================== *)

Module Py.

(** A Python [str] is held as its UTF-8 bytes, one [ascii] per byte.  The
    whitespace of [str.strip] and [str.split] is that of [str.isspace]:
    U+0009 to U+000D, U+001C to U+0020, U+0085, U+00A0, U+1680, U+2000 to
    U+200A, U+2028, U+2029, U+202F, U+205F and U+3000.  The first ten are
    one byte long, the next two are two bytes long, the others three. *)

(** The whitespace characters of one byte: TAB, LF, VT, FF, CR, the four
    separators FS GS RS US, and the space. *)
Definition isspace (c : ascii) : bool :=
  let n := N_of_ascii c in
  ((9 <=? n)%N && (n <=? 13)%N) || ((28 <=? n)%N && (n <=? 32)%N).

(** The whitespace characters of two bytes: U+0085 (C2 85), the next
    line, and U+00A0 (C2 A0), the no-break space. *)
Definition isspace2 (c1 c2 : ascii) : bool :=
  Ascii.eqb c1 "194" && (Ascii.eqb c2 "133" || Ascii.eqb c2 "160").

(** The whitespace characters of three bytes: U+1680 (E1 9A 80), U+2000 to
    U+200A (E2 80 80 to E2 80 8A), U+2028, U+2029 and U+202F (E2 80 A8,
    E2 80 A9, E2 80 AF), U+205F (E2 81 9F) and U+3000 (E3 80 80). *)
Definition isspace3 (c1 c2 c3 : ascii) : bool :=
  let n3 := N_of_ascii c3 in
  (Ascii.eqb c1 "225" && Ascii.eqb c2 "154" && Ascii.eqb c3 "128")
  || (Ascii.eqb c1 "226" && Ascii.eqb c2 "128" &&
      (((128 <=? n3)%N && (n3 <=? 138)%N)
       || Ascii.eqb c3 "168" || Ascii.eqb c3 "169" || Ascii.eqb c3 "175"))
  || (Ascii.eqb c1 "226" && Ascii.eqb c2 "129" && Ascii.eqb c3 "159")
  || (Ascii.eqb c1 "227" && Ascii.eqb c2 "128" && Ascii.eqb c3 "128").

(** What follows the whitespace character at the front of [s], if there is
    one. *)
Definition skip_space (s : string) : option string :=
  match s with
  | EmptyString => None
  | String c1 r1 =>
      if isspace c1 then Some r1
      else match r1 with
           | String c2 r2 =>
               if isspace2 c1 c2 then Some r2
               else match r2 with
                    | String c3 r3 => if isspace3 c1 c2 c3 then Some r3 else None
                    | EmptyString => None
                    end
           | EmptyString => None
           end
  end.

(** The line boundaries of [str.splitlines] of one byte: LF, VT, FF, CR,
    FS, GS, RS (CR LF counts once, see [line_width]). *)
Definition islinebreak (c : ascii) : bool :=
  let n := N_of_ascii c in
  ((10 <=? n)%N && (n <=? 13)%N) || ((28 <=? n)%N && (n <=? 30)%N).

(** The line boundary of two bytes, U+0085 (C2 85). *)
Definition islinebreak2 (c1 c2 : ascii) : bool :=
  Ascii.eqb c1 "194" && Ascii.eqb c2 "133".

(** The line boundaries of three bytes, U+2028 and U+2029 (E2 80 A8 and
    E2 80 A9). *)
Definition islinebreak3 (c1 c2 c3 : ascii) : bool :=
  Ascii.eqb c1 "226" && Ascii.eqb c2 "128" &&
  (Ascii.eqb c3 "168" || Ascii.eqb c3 "169").

(** [s.lower()] on the letters A to Z, the other bytes kept.  The program
    lowers a text only to compare it with the letter y, and no character
    outside A to Z is lowered to an ASCII letter by Python but the Kelvin
    sign U+212A, which gives k. *)
Definition lower_char (c : ascii) : ascii :=
  let n := N_of_ascii c in
  if ((65 <=? n)%N && (n <=? 90)%N)%bool then ascii_of_N (n + 32) else c.

Fixpoint lower (s : string) : string :=
  match s with
  | EmptyString => EmptyString
  | String c r => String (lower_char c) (lower r)
  end.

(** [bool(s)] for a string: non-empty. *)
Definition nonempty (s : string) : bool :=
  match s with EmptyString => false | String _ _ => true end.

(** [s.lstrip()]: the whitespace characters at the front are dropped. *)
Fixpoint lstrip (s : string) : string :=
  match s with
  | EmptyString => EmptyString
  | String c1 r1 =>
      if isspace c1 then lstrip r1
      else match r1 with
           | String c2 r2 =>
               if isspace2 c1 c2 then lstrip r2
               else match r2 with
                    | String c3 r3 => if isspace3 c1 c2 c3 then lstrip r3 else s
                    | EmptyString => s
                    end
           | EmptyString => s
           end
  end.

(** [not s.strip()]: nothing but whitespace. *)
Definition blank (s : string) : bool := negb (nonempty (lstrip s)).

(** [s.rstrip()]: the text is cut where only whitespace is left. *)
Fixpoint rstrip (s : string) : string :=
  match s with
  | EmptyString => EmptyString
  | String c r => if blank (String c r) then EmptyString else String c (rstrip r)
  end.

(** [s.strip()] *)
Definition strip (s : string) : string := rstrip (lstrip s).

(** The number of bytes of the whitespace character at the front of [s],
    0 when there is none. *)
Definition space_width (s : string) : nat :=
  match skip_space s with
  | Some r => String.length s - String.length r
  | None => 0
  end.

(** The number of bytes of the line boundary at the front of [s], 0 when
    there is none; CR LF is one boundary of two bytes. *)
Definition line_width (s : string) : nat :=
  match s with
  | EmptyString => 0
  | String c1 r1 =>
      if islinebreak c1 then
        match r1 with
        | String c2 _ =>
            if (Ascii.eqb c1 "013" && Ascii.eqb c2 "010")%bool then 2 else 1
        | EmptyString => 1
        end
      else match r1 with
           | String c2 r2 =>
               if islinebreak2 c1 c2 then 2
               else match r2 with
                    | String c3 _ => if islinebreak3 c1 c2 c3 then 3 else 0
                    | EmptyString => 0
                    end
           | EmptyString => 0
           end
  end.

(** The fields of [s] between the separators that [width] finds, [skip]
    being the number of bytes of a separator still to pass; the head of
    the result is the field that is still open. *)
Fixpoint fields_from (width : string -> nat) (skip : nat) (s : string) : list string :=
  match s with
  | EmptyString => [EmptyString]
  | String c r =>
      match skip with
      | S n => fields_from width n r
      | O =>
          match width s with
          | S n => EmptyString :: fields_from width n r
          | O => match fields_from width 0 r with
                 | f :: fs => String c f :: fs
                 | [] => [String c EmptyString]
                 end
          end
      end
  end.

(** The fields of [s] between single whitespace characters. *)
Definition fields_ws (s : string) : list string := fields_from space_width 0 s.

(** [s.split()]: the maximal runs of non-whitespace characters. *)
Definition split (s : string) : list string := List.filter nonempty (fields_ws s).

(** The fields of [s] between line boundaries. *)
Definition fields_lines (s : string) : list string := fields_from line_width 0 s.

(** [s.splitlines()]: a boundary at the very end opens no further line. *)
Definition splitlines (s : string) : list string :=
  let fs := fields_lines s in
  if nonempty (List.last fs EmptyString) then fs else List.removelast fs.

(** [sep.join(l)] *)
Fixpoint join (sep : string) (l : list string) : string :=
  match l with
  | [] => EmptyString
  | [x] => x
  | x :: rest => x ++ sep ++ join sep rest
  end.

(** [s.startswith(p)] *)
Definition startswith (p s : string) : bool := String.prefix p s.

(** [s[n:]] *)
Definition drop (n : nat) (s : string) : string :=
  String.substring n (String.length s - n) s.

(** [x in l] for a list of strings. *)
Definition mem (x : string) (l : list string) : bool := bool_decide (x ∈ l).

(** [bool(x)] for an [Optional[str]]: [None] and the empty string are false. *)
Definition truthy (o : option string) : bool :=
  match o with Some s => nonempty s | None => false end.

(** [str(x)] inside an f-string for an [Optional[str]]. *)
Definition show (o : option string) : string :=
  match o with Some s => s | None => "None" end.

(** [os.path.join(a, b)] for a relative [b] and a non-empty [a]. *)
Definition path_join (a b : string) : string :=
  if String.eqb (String.substring (String.length a - 1) 1 a) "/"
  then a ++ b else a ++ "/" ++ b.

(** The line feed character, written [\n] in the source. *)
Definition nl : string := String "010" EmptyString.

End Py.

(** The UTF-8 bytes of a character, given as numbers. *)
Definition utf8 (bytes : list nat) : string :=
  string_of_list_ascii (List.map ascii_of_nat bytes).

(** The characters Python 3 counts as whitespace ([str.isspace], the ones
    [str.strip] and [str.split] remove), each as its UTF-8 bytes: U+0009 to
    U+000D, U+001C to U+0020, U+0085, U+00A0, U+1680, U+2000 to U+200A,
    U+2028, U+2029, U+202F, U+205F and U+3000. *)
Definition whitespace_chars : list string :=
  List.map utf8
    [ [9]; [10]; [11]; [12]; [13]; [28]; [29]; [30]; [31]; [32];
      [194; 133]; [194; 160]; [225; 154; 128];
      [226; 128; 128]; [226; 128; 129]; [226; 128; 130]; [226; 128; 131];
      [226; 128; 132]; [226; 128; 133]; [226; 128; 134]; [226; 128; 135];
      [226; 128; 136]; [226; 128; 137]; [226; 128; 138];
      [226; 128; 168]; [226; 128; 169]; [226; 128; 175];
      [226; 129; 159]; [227; 128; 128] ].


(** A string of whitespace characters. *)
Inductive whitespace : string -> Prop :=
| ws_nil : whitespace EmptyString
| ws_skip (s r : string) : Py.skip_space s = Some r -> whitespace r -> whitespace s.

(** No whitespace character at the front of [t] and none at its back. *)
Definition bare (t : string) : Prop :=
  Py.skip_space t = None /\
  forall u v, t = u ++ v -> whitespace v -> v = EmptyString.

(** A byte that continues a character of several bytes. *)
Definition continuation (c : ascii) : bool :=
  ((128 <=? N_of_ascii c)%N && (N_of_ascii c <=? 191)%N)%bool.

(* ===================================================================== *)
(** * datetime *)
(* ===================================================================== *)

(** What [datetime.utcnow()] returns.  Python keeps [1 <= year <= 9999],
    [1 <= month <= 12], [1 <= day <= 31], [hour < 24], [minute < 60],
    [second < 60] and [microsecond < 1000000]. *)
Record datetime := mk_datetime {
  year : N; month : N; day : N;
  hour : N; minute : N; second : N;
  microsecond : N
}.

Definition valid_datetime (t : datetime) : Prop :=
  (1 <= year t <= 9999 /\ 1 <= month t <= 12 /\ 1 <= day t <= 31 /\
   hour t < 24 /\ minute t < 60 /\ second t < 60 /\ microsecond t < 1000000)%N.

(** Two clock readings within the same second. *)
Definition same_second (t1 t2 : datetime) : Prop :=
  year t1 = year t2 /\ month t1 = month t2 /\ day t1 = day t2 /\
  hour t1 = hour t2 /\ minute t1 = minute t2 /\ second t1 = second t2.

Definition digit (n : N) : ascii := ascii_of_N (48 + n mod 10).

(** [%m], [%d], [%H], [%M], [%S]: two decimal digits. *)
Definition fmt2 (n : N) : string :=
  String (digit (n / 10)) (String (digit n) EmptyString).

(** [%Y]: four decimal digits. *)
Definition fmt4 (n : N) : string :=
  String (digit (n / 1000)) (String (digit (n / 100))
    (String (digit (n / 10)) (String (digit n) EmptyString))).

(** [t.strftime("%Y%m%dT%H%M%SZ")], the compact form of the backup tags. *)
Definition strftime_compact (t : datetime) : string :=
  fmt4 (year t) ++ fmt2 (month t) ++ fmt2 (day t) ++ "T" ++
  fmt2 (hour t) ++ fmt2 (minute t) ++ fmt2 (second t) ++ "Z".

(** [t.strftime("%Y-%m-%dT%H:%M:%SZ")], the form of the audit log. *)
Definition strftime_iso (t : datetime) : string :=
  fmt4 (year t) ++ "-" ++ fmt2 (month t) ++ "-" ++ fmt2 (day t) ++ "T" ++
  fmt2 (hour t) ++ ":" ++ fmt2 (minute t) ++ ":" ++ fmt2 (second t) ++ "Z".

(* ===================================================================== *)
(** * The world of a run *)
(* ===================================================================== *)

(** [subprocess.CompletedProcess] of a call with [capture_output=True] and
    [text=True]. *)
Record CompletedProcess := mk_cp {
  returncode : Z;
  stdout : string;
  stderr : string
}.

(** Everything a run does that can be seen from outside, in the order of
    the program: a [print], an [input] with its prompt and the line read
    ([None] at end of input), a call of [git] with the argument list after
    the word git and what came back, and an append of the line
    [[ts] msg] to the audit log at [path] (the directory of the file is
    created on the way; the line written is [log_line ts msg]). *)
Inductive event :=
| EvPrint (text : string)
| EvInput (prompt : string) (answer : option string)
| EvGit (args : list string) (cp : CompletedProcess)
| EvLog (path : string) (ts : string) (msg : string).

(** The line [log_action] writes, line 60 of the source. *)
Definition log_line (ts msg : string) : string :=
  ("[" ++ ts ++ "] " ++ msg ++ Py.nl).

(** The lines the operator will type, and the history, newest event first. *)
Record world := mk_world {
  stdin : list string;
  events : list event
}.

(** The exceptions the modelled code can raise: [input] at end of input,
    and [subprocess.run] on an argument that is [None]. *)
Inductive exn := EOFError | TypeError.

Inductive outcome (A : Type) :=
| Returned (a : A)
| Raised (e : exn).
Arguments Returned {A} a.
Arguments Raised {A} e.

(** A computation: from a world to what it returned or raised, and the
    world it left. *)
Definition M (A : Type) : Type := world -> outcome A * world.

Definition ret {A} (a : A) : M A := fun w => (Returned a, w).

Definition raise {A} (e : exn) : M A := fun w => (Raised e, w).

Definition bind {A B} (m : M A) (k : A -> M B) : M B :=
  fun w =>
    match m w with
    | (Returned a, w1) => k a w1
    | (Raised e, w1) => (Raised e, w1)
    end.

Declare Scope py_scope.
Delimit Scope py_scope with py.
Notation "x <- m ;; k" := (bind m (fun x => k))
  (at level 100, m at next level, right associativity) : py_scope.
Notation "m ;; k" := (bind m (fun _ => k))
  (at level 100, right associativity) : py_scope.
Open Scope py_scope.

Definition emit (e : event) : M unit :=
  fun w => (Returned tt, mk_world (stdin w) (e :: events w)).

(** [print(text)] *)
Definition print (text : string) : M unit := emit (EvPrint text).

(** [input(prompt)]: the prompt is shown, then a line is read. *)
Definition input (prompt : string) : M string :=
  fun w =>
    match stdin w with
    | [] => (Raised EOFError, mk_world [] (EvInput prompt None :: events w))
    | l :: rest => (Returned l, mk_world rest (EvInput prompt (Some l) :: events w))
    end.

(** [a or b] on computations: [b] runs only when [a] gave [False]. *)
Definition orM (a b : M bool) : M bool :=
  x <- a ;; if x then ret true else b.

(** The events of [w'] that are not yet in [w], newest first. *)
Definition since (w w' : world) : list event :=
  List.firstn (length (events w') - length (events w)) (events w').

(* ===================================================================== *)
(** * The program *)
(* ===================================================================== *)

(** [PROTECTED_BRANCHES], line 19. *)
Definition PROTECTED_BRANCHES : gset string :=
  {[ "main"; "master"; "develop"; "production"; "prod"; "staging"; "release" ]}.

(** [LOG_FILENAME], line 20. *)
Definition LOG_FILENAME : string := ".git/git_helper_actions.log".

(** [a == b] for a [str] and an [Optional[str]]. *)
Definition eq_opt (a : string) (b : option string) : bool :=
  match b with Some s => String.eqb a s | None => false end.

(** [o or d] for an [Optional[str]]. *)
Definition or_else (o : option string) (d : string) : string :=
  if Py.truthy o then Py.show o else d.

Section Workflows.

(** The environment of a run: what [git] answers to an argument list, and
    what the clock shows, after a given history. *)
Variable git : list event -> list string -> CompletedProcess.
Variable clock : list event -> datetime.

(** [run_git(args)], lines 25-27. *)
Definition run_git (args : list string) : M CompletedProcess :=
  fun w =>
    let cp := git (events w) args in
    (Returned cp, mk_world (stdin w) (EvGit args cp :: events w)).

(** [datetime.utcnow()] *)
Definition utcnow : M datetime :=
  fun w => (Returned (clock (events w)), w).

(** [print_run_git(args)], lines 29-35. *)
Definition print_run_git (args : list string) : M CompletedProcess :=
  cp <- run_git args ;;
  (if Py.nonempty (stdout cp) then print (Py.strip (stdout cp)) else ret tt) ;;
  (if negb (returncode cp =? 0)%Z && Py.nonempty (stderr cp)
   then print ("‚ùå git " ++ (Py.join " " args) ++ " error: " ++ (Py.strip (stderr cp)))
   else ret tt) ;;
  ret cp.

(** [confirm(prompt)], lines 37-39. *)
Definition confirm (prompt : string) : M bool :=
  r <- input (prompt ++ " (y/n): ") ;;
  ret (String.eqb (Py.lower (Py.strip r)) "y").

(** [typed_confirm(prompt, expected)], lines 41-45. *)
Definition typed_confirm (prompt expected : string) : M bool :=
  print prompt ;;
  typed <- input "Type the exact text to confirm: " ;;
  ret (String.eqb (Py.strip typed) expected).

(** [get_repo_root()], lines 47-51. *)
Definition get_repo_root : M (option string) :=
  cp <- run_git ["rev-parse"; "--show-toplevel"] ;;
  if negb (returncode cp =? 0)%Z then ret None
  else ret (Some (Py.strip (stdout cp))).

(** [log_action(repo_root, msg)], lines 53-60. *)
Definition log_action (repo_root : option string) (msg : string) : M unit :=
  if negb (Py.truthy repo_root) then ret tt
  else
    let log_path := Py.path_join (Py.show repo_root) LOG_FILENAME in
    now <- utcnow ;;
    let ts := strftime_iso now in
    emit (EvLog log_path ts msg).

(** [get_current_branch()], lines 62-66. *)
Definition get_current_branch : M (option string) :=
  cp <- run_git ["rev-parse"; "--abbrev-ref"; "HEAD"] ;;
  if negb (returncode cp =? 0)%Z then ret None
  else ret (Some (Py.strip (stdout cp))).

(** [list_local_branches()], lines 68-72. *)
Definition list_local_branches : M (list string) :=
  cp <- run_git ["branch"; "--format=%(refname:short)"] ;;
  if negb (returncode cp =? 0)%Z then ret []
  else ret (List.map Py.strip
              (List.filter (fun b => Py.nonempty (Py.strip b))
                 (Py.splitlines (stdout cp)))).

(** The body of the loop of [list_remote_branches], lines 80-84: the names
    one line of [git ls-remote --heads] adds. *)
Definition remote_head (line : string) : list string :=
  match Py.split line with
  | _ :: ref :: _ =>
      if Py.startswith "refs/heads/" ref
      then [Py.drop (String.length "refs/heads/") ref]
      else []
  | _ => []
  end.

(** [list_remote_branches(remote)], lines 74-85. *)
Definition list_remote_branches (remote : string) : M (list string) :=
  cp <- run_git ["ls-remote"; "--heads"; remote] ;;
  if negb (returncode cp =? 0)%Z then ret []
  else ret (List.flat_map remote_head (Py.splitlines (stdout cp))).

(** [branch_exists_local(branch)], lines 87-88. *)
Definition branch_exists_local (branch : string) : M bool :=
  l <- list_local_branches ;; ret (Py.mem branch l).

(** [branch_exists_remote(branch, remote)], lines 90-91. *)
Definition branch_exists_remote (branch remote : string) : M bool :=
  l <- list_remote_branches remote ;; ret (Py.mem branch l).

(** [choose_primary_branch()], lines 93-100. *)
Definition choose_primary_branch : M (option string) :=
  locals_ <- list_local_branches ;;
  let candidates := ["develop"; "main"; "master"] in
  match List.find (fun c => Py.mem c locals_) candidates with
  | Some c => ret (Some c)
  | None => ret (List.head locals_)
  end.

(** [is_merged_into(source, target)], lines 102-105. *)
Definition is_merged_into (source target : string) : M bool :=
  cp <- run_git ["merge-base"; "--is-ancestor"; source; target] ;;
  ret (returncode cp =? 0)%Z.

(** [show_commits_unique(source, target)], lines 107-112. *)
Definition show_commits_unique (source target : string) : M string :=
  cp <- run_git ["log"; "--oneline"; target ++ ".." ++ source] ;;
  if negb (returncode cp =? 0)%Z then ret (Py.strip (stderr cp))
  else ret (if Py.nonempty (Py.strip (stdout cp)) then Py.strip (stdout cp)
            else "(no unique commits)").

(** The name [create_backup_tag] composes on lines 115-116. *)
Definition backup_tag_name (branch : string) (now : datetime) : string :=
  let ts := strftime_compact now in
  ("backup/" ++ branch ++ "/" ++ ts).

(** [create_backup_tag(branch, repo_root)], lines 114-131. *)
Definition create_backup_tag (branch : string) (repo_root : option string)
  : M (option string) :=
  now <- utcnow ;;
  let safe_tag := backup_tag_name branch now in
  cp <- run_git ["tag"; safe_tag; branch] ;;
  if negb (returncode cp =? 0)%Z then
    print ("‚ùå Failed to create tag " ++ safe_tag ++ ": " ++ (Py.strip (stderr cp))) ;;
    ret None
  else
    print ("‚úÖ Created backup tag: " ++ safe_tag) ;;
    log_action repo_root ("Created backup tag " ++ safe_tag ++ " for branch " ++ branch) ;;
    on_remote <- branch_exists_remote branch "origin" ;;
    (if on_remote then
       ok <- confirm "Push the backup tag to 'origin'?" ;;
       if ok then
         cp2 <- run_git ["push"; "origin"; safe_tag] ;;
         if (returncode cp2 =? 0)%Z then
           print ("‚úÖ Pushed tag " ++ safe_tag ++ " to origin") ;;
           log_action repo_root ("Pushed tag " ++ safe_tag ++ " to origin")
         else print ("‚ùå Failed to push tag: " ++ (Py.strip (stderr cp2)))
       else ret tt
     else ret tt) ;;
    ret (Some safe_tag).

(** [is_working_tree_clean()], lines 133-138. *)
Definition is_working_tree_clean : M bool :=
  cp <- run_git ["status"; "--porcelain"] ;;
  if negb (returncode cp =? 0)%Z then ret false
  else ret (negb (Py.nonempty (Py.strip (stdout cp)))).

(** [check_git_repo()], lines 156-161. *)
Definition check_git_repo : M bool :=
  cp <- run_git ["rev-parse"; "--is-inside-work-tree"] ;;
  if negb (returncode cp =? 0)%Z then
    print "‚ùå Not inside a Git repository. Run setup first." ;;
    ret false
  else ret true.

(** ** Delete branch (SAFE), lines 236-341

    [delete_branch] is cut at the comments of the source into the blocks
    below.  A block that can leave the function with [return] gives back
    [false] when it did and [true] when the function goes on. *)

(** Lines 304-314, "require exact-branch typed confirmation for force
    delete": the rest of the local path. *)
Definition force_delete_gate (repo_root : option string) (branch : string) : M unit :=
  print "To force-delete this unmerged local branch, you must type the exact branch name." ;;
  ok <- typed_confirm "Force-delete confirmation" branch ;;
  if ok then
    cp <- run_git ["branch"; "-D"; branch] ;;
    if (returncode cp =? 0)%Z then
      print ("‚úÖ Force-deleted local branch '" ++ branch ++ "'.") ;;
      log_action repo_root ("Force-deleted local branch " ++ branch)
    else print ("‚ùå Failed to force-delete: " ++ (Py.strip (stderr cp)))
  else print "Aborted local deletion.".

(** Lines 292-314, "Unmerged / unknown safety". *)
Definition delete_local_unmerged (repo_root : option string) (branch : string)
    (primary : option string) : M unit :=
  (if Py.truthy primary
   then print ("‚ö†Ô∏è Branch '" ++ branch ++ "' does NOT appear merged into '" ++ (Py.show primary) ++ "'.")
   else print "‚ö†Ô∏è Could not determine a primary branch to check merge status.") ;;
  commits <- show_commits_unique branch (or_else primary "HEAD") ;;
  print (Py.nl ++ "Commits that are unique to the branch (would be lost):") ;;
  print commits ;;
  ok <- confirm "Create a backup tag for this branch before deleting?" ;;
  (if ok then
     tag <- create_backup_tag branch repo_root ;;
     if Py.truthy tag then print ("Backup tag created: " ++ (Py.show tag)) else ret tt
   else ret tt) ;;
  force_delete_gate repo_root branch.

(** Lines 283-290: the branch is merged into the primary branch. *)
Definition delete_local_merged (repo_root : option string) (branch : string)
    (primary : option string) : M unit :=
  print ("‚úÖ Branch '" ++ branch ++ "' appears merged into '" ++ (Py.show primary) ++ "'. Safe to delete locally.") ;;
  ok <- confirm ("Delete local branch '" ++ branch ++ "'?") ;;
  if ok then
    cp <- run_git ["branch"; "-d"; branch] ;;
    if (returncode cp =? 0)%Z then
      print ("‚úÖ Deleted local branch '" ++ branch ++ "'.") ;;
      log_action repo_root ("Deleted local branch " ++ branch)
    else print ("‚ùå Failed to delete locally: " ++ (Py.strip (stderr cp)))
  else ret tt.

(** Lines 280-314, "Determine merge safety".  In
    [primary and is_merged_into(branch, primary)] the query runs only for a
    primary that is neither [None] nor empty. *)
Definition delete_local_checked (repo_root : option string) (branch : string) : M unit :=
  primary <- choose_primary_branch ;;
  merged <- (if Py.truthy primary then is_merged_into branch (Py.show primary)
             else ret false) ;;
  if merged then delete_local_merged repo_root branch primary
  else delete_local_unmerged repo_root branch primary.

(** Lines 269-278: the branch to delete is the one checked out.
    [subprocess.run] raises [TypeError] on the [None] that
    [choose_primary_branch] gives when there is no local branch. *)
Definition leave_current_branch : M bool :=
  print "‚ùå You are currently on the branch you want to delete." ;;
  safe_target <- choose_primary_branch ;;
  (if Py.truthy safe_target
   then print ("Suggested safe branch to switch to: " ++ (Py.show safe_target))
   else ret tt) ;;
  ok <- confirm "Switch to the suggested safe branch and continue?" ;;
  if ok then
    match safe_target with
    | Some t => print_run_git ["checkout"; t] ;; ret true
    | None => raise TypeError
    end
  else
    print "Abort: please checkout a different branch before deleting." ;;
    ret false.

(** Lines 265-314, "Local delete flow", inside [if choice in {"1","3"}]. *)
Definition local_delete_flow (repo_root current : option string) (branch : string)
  : M bool :=
  found <- branch_exists_local branch ;;
  if negb found then
    print ("‚ÑπÔ∏è Local branch '" ++ branch ++ "' not found.") ;;
    ret true
  else
    go <- (if eq_opt branch current then leave_current_branch else ret true) ;;
    if go then delete_local_checked repo_root branch ;; ret true
    else ret false.

(** Lines 330-341, "Extra safety for remote delete (require exact typed
    match)": the rest of the remote path. *)
Definition remote_delete_gate (repo_root : option string) (branch : string) : M unit :=
  print "To delete the remote branch, type the exact branch name to confirm." ;;
  ok <- typed_confirm "Remote-delete confirmation" branch ;;
  if negb ok then print "Aborted remote deletion."
  else
    cp <- run_git ["push"; "origin"; "--delete"; branch] ;;
    if (returncode cp =? 0)%Z then
      print ("‚úÖ Deleted remote branch 'origin/" ++ branch ++ "'.") ;;
      log_action repo_root ("Deleted remote branch origin/" ++ branch)
    else print ("‚ùå Failed to delete remote branch: " ++ (Py.strip (stderr cp))).

(** Lines 318-341, "Remote delete flow", inside [if choice in {"2","3"}]. *)
Definition remote_delete_flow (repo_root : option string) (branch : string) : M unit :=
  cp_rem <- run_git ["remote"] ;;
  let remotes := if (returncode cp_rem =? 0)%Z then Py.split (stdout cp_rem) else [] in
  if negb (Py.mem "origin" remotes) then print "‚ùå Remote 'origin' not configured; cannot delete remote branch."
  else
    found <- branch_exists_remote branch "origin" ;;
    go <- (if negb found then
             print ("‚ÑπÔ∏è Remote branch 'origin/" ++ branch ++ "' not found.") ;;
             confirm "Do you still want to attempt remote deletion?"
           else ret true) ;;
    if negb go then ret tt
    else remote_delete_gate repo_root branch.

(** Lines 255-262, "Protect very important branches". *)
Definition protected_branch_gate (branch : string) : M bool :=
  if bool_decide (branch ∈ PROTECTED_BRANCHES) then
    print ("‚ö†Ô∏è  '" ++ branch ++ "' is a protected branch by default.") ;;
    let confirm_phrase := ("DELETE " ++ branch) in
    print ("To proceed you must type exactly: " ++ confirm_phrase) ;;
    ok <- typed_confirm "Protected-branch deletion confirmation" confirm_phrase ;;
    if negb ok then
      print "Aborted protected-branch deletion." ;;
      ret false
    else ret true
  else ret true.

(** Lines 255-341: [delete_branch] once the scope and the branch name are
    read. *)
Definition delete_selected (repo_root current : option string)
    (choice branch : string) : M unit :=
  go <- protected_branch_gate branch ;;
  if negb go then ret tt
  else
    go <- (if bool_decide (choice ∈ ({[ "1"; "3" ]} : gset string))
           then local_delete_flow repo_root current branch
           else ret true) ;;
    if negb go then ret tt
    else
      if bool_decide (choice ∈ ({[ "2"; "3" ]} : gset string))
      then remote_delete_flow repo_root branch
      else ret tt.

(** [delete_branch()], lines 236-341. *)
Definition delete_branch : M unit :=
  ok <- check_git_repo ;;
  if negb ok then ret tt
  else
    repo_root <- get_repo_root ;;
    current <- get_current_branch ;;
    print ("Current branch: " ++ (Py.show current)) ;;
    print "Delete branch options:" ;;
    print "  1) Delete local branch" ;;
    print "  2) Delete remote branch (origin)" ;;
    print "  3) Delete both local and remote" ;;
    line <- input "> " ;;
    let choice := Py.strip line in
    if negb (bool_decide (choice ∈ ({[ "1"; "2"; "3" ]} : gset string))) then
      print "‚ùå Invalid choice."
    else
      line <- input "Branch name to delete: " ;;
      let branch := Py.strip line in
      if negb (Py.nonempty branch) then print "‚ùå Branch name cannot be empty."
      else delete_selected repo_root current choice branch.

(** ** Push staging -> main (SAFE), lines 344-424 *)

(** Lines 402-424, "Require typed confirmation", "Perform merge" and "Push
    to origin". *)
Definition promote_final (repo_root : option string) (chosen_main : string) : M unit :=
  let confirm_phrase := "PUSH STAGING TO MAIN" in
  print ("‚ö†Ô∏è This will merge 'staging' into '" ++ chosen_main ++ "' and push to origin.") ;;
  print ("To confirm, type exactly: " ++ confirm_phrase) ;;
  ok <- typed_confirm "Final confirmation" confirm_phrase ;;
  if negb ok then print "Aborted push staging->main."
  else
    cp <- run_git ["merge"; "staging"] ;;
    if negb (returncode cp =? 0)%Z then
      print "‚ùå Merge failed or produced conflicts. Resolve manually, then push. Aborting push." ;;
      if Py.nonempty (stderr cp) then print (Py.strip (stderr cp)) else ret tt
    else
      cp2 <- run_git ["push"; "origin"; chosen_main] ;;
      if (returncode cp2 =? 0)%Z then
        print ("‚úÖ Successfully pushed '" ++ chosen_main ++ "' to origin.") ;;
        log_action repo_root ("Merged staging into " ++ chosen_main ++ " and pushed to origin")
      else print ("‚ùå Failed to push " ++ chosen_main ++ ": " ++ (Py.strip (stderr cp2))).

(** Lines 388-400, "Pull latest for both branches" and "Optional backup tag
    on main", and then the rest of the function. *)
Definition promote_sync (repo_root : option string) : M unit :=
  print_run_git ["checkout"; "staging"] ;;
  print_run_git ["pull"; "origin"; "staging"] ;;
  has_main <- orM (branch_exists_local "main") (branch_exists_remote "main" "origin") ;;
  let chosen_main := if has_main then "main" else "master" in
  print_run_git ["checkout"; chosen_main] ;;
  print_run_git ["pull"; "origin"; chosen_main] ;;
  ok <- confirm ("Create a backup tag for '" ++ chosen_main ++ "' before merging?") ;;
  (if ok then
     tag <- create_backup_tag chosen_main repo_root ;;
     if Py.truthy tag then print ("Backup tag created: " ++ (Py.show tag)) else ret tt
   else ret tt) ;;
  promote_final repo_root chosen_main.

(** Lines 381-424, "Ensure working tree is clean", and then the rest of the
    function. *)
Definition promote_checked (repo_root : option string) : M unit :=
  clean <- is_working_tree_clean ;;
  go <- (if negb clean then
           print "‚ö†Ô∏è Working tree is not clean. Please commit or stash changes before deploying to main." ;;
           ok <- confirm "Proceed despite uncommitted changes?" ;;
           if negb ok then
             print "Aborted due to dirty working tree." ;;
             ret false
           else ret true
         else ret true) ;;
  if negb go then ret tt else promote_sync repo_root.

(** Lines 356-362: the offer to create a local [staging].  [None]: the
    function returned; [Some b]: it goes on with [staging_local = b]. *)
Definition track_staging (staging_local staging_remote : bool) : M (option bool) :=
  if negb staging_local && staging_remote then
    ok <- confirm "Local 'staging' not found. Create tracking branch from origin/staging?" ;;
    if ok then
      cp <- run_git ["checkout"; "-b"; "staging"; "origin/staging"] ;;
      if negb (returncode cp =? 0)%Z then
        print "‚ùå Failed to create local staging from origin/staging." ;;
        ret None
      else ret (Some true)
    else ret (Some staging_local)
  else ret (Some staging_local).

(** Lines 364-372: the offer to create a local [main] or [master]. *)
Definition track_main (main_local main_remote : bool) : M (option bool) :=
  if negb main_local && main_remote then
    on_main <- branch_exists_remote "main" "origin" ;;
    let remote_main := if on_main then "main" else "master" in
    ok <- confirm ("Local main/master not found. Create tracking branch from origin/" ++ remote_main ++ "?") ;;
    if ok then
      cp <- run_git ["checkout"; "-b"; remote_main; "origin/" ++ remote_main] ;;
      if negb (returncode cp =? 0)%Z then
        print ("‚ùå Failed to create local " ++ remote_main ++ " from origin/" ++ remote_main ++ ".") ;;
        ret None
      else ret (Some true)
    else ret (Some main_local)
  else ret (Some main_local).

(** Lines 349-379: where the branches are, and the tracking branches. *)
Definition resolve_branches : M bool :=
  staging_local <- branch_exists_local "staging" ;;
  main_local <- orM (branch_exists_local "main") (branch_exists_local "master") ;;
  staging_remote <- branch_exists_remote "staging" "origin" ;;
  main_remote <- orM (branch_exists_remote "main" "origin")
                     (branch_exists_remote "master" "origin") ;;
  tracked <- track_staging staging_local staging_remote ;;
  match tracked with
  | None => ret false
  | Some staging_local =>
      tracked <- track_main main_local main_remote ;;
      match tracked with
      | None => ret false
      | Some main_local =>
          if negb (staging_local || staging_remote) then
            print "‚ùå No staging branch found locally or on origin. Aborting." ;;
            ret false
          else if negb (main_local || main_remote) then
            print "‚ùå No main/master branch found locally or on origin. Aborting." ;;
            ret false
          else ret true
      end
  end.

(** [push_staging_to_main()], lines 344-424. *)
Definition push_staging_to_main : M unit :=
  ok <- check_git_repo ;;
  if negb ok then ret tt
  else
    repo_root <- get_repo_root ;;
    go <- resolve_branches ;;
    if negb go then ret tt else promote_checked repo_root.

End Workflows.

(* ===================================================================== *)
(** * The basic commands and the views, lines 163-220 *)
(* ===================================================================== *)

Section Commands.

Variable git : list event -> list string -> CompletedProcess.

(** [create_branch()], lines 163-171. *)
Definition create_branch : M unit :=
  ok <- check_git_repo git ;;
  if negb ok then ret tt
  else
    name <- input "Enter new branch name: " ;;
    let name := Py.strip name in
    if negb (Py.nonempty name) then print "‚ùå Branch name cannot be empty."
    else
      print_run_git git ["checkout"; "-b"; name] ;;
      ok <- confirm "Push new branch to remote?" ;;
      if ok then print_run_git git ["push"; "-u"; "origin"; name] ;; ret tt
      else ret tt.

(** [commit_changes()], lines 173-182. *)
Definition commit_changes : M unit :=
  ok <- check_git_repo git ;;
  if negb ok then ret tt
  else
    msg <- input "Commit message: " ;;
    let msg := Py.strip msg in
    if negb (Py.nonempty msg) then print "‚ùå Commit message cannot be empty."
    else
      print_run_git git ["add"; "."] ;;
      print_run_git git ["commit"; "-m"; msg] ;;
      ok <- confirm "Push changes to remote?" ;;
      if ok then print_run_git git ["push"] ;; ret tt
      else ret tt.

(** [merge_branch()], lines 184-196. *)
Definition merge_branch : M unit :=
  ok <- check_git_repo git ;;
  if negb ok then ret tt
  else
    target <- input "Merge into branch (e.g., develop): " ;;
    let target := Py.strip target in
    source <- input "Branch to merge from: " ;;
    let source := Py.strip source in
    if negb (Py.nonempty target) || negb (Py.nonempty source) then print "‚ùå Branch names cannot be empty."
    else
      ok <- confirm ("Merge '" ++ source ++ "' into '" ++ target ++ "'?") ;;
      if ok then
        print_run_git git ["checkout"; target] ;;
        print_run_git git ["pull"] ;;
        print_run_git git ["merge"; source] ;;
        ok <- confirm "Push merged changes to remote?" ;;
        if ok then print_run_git git ["push"] ;; ret tt
        else ret tt
      else ret tt.

(** [pull_latest()], lines 198-200. *)
Definition pull_latest : M unit :=
  ok <- check_git_repo git ;;
  if negb ok then ret tt
  else print_run_git git ["pull"] ;; ret tt.

(** [show_status()], lines 203-209. *)
Definition show_status : M unit :=
  ok <- check_git_repo git ;;
  if negb ok then ret tt
  else
    print (Py.nl ++ "üîé Git status (short + branch):") ;;
    print_run_git git ["status"; "--short"; "--branch"] ;; ret tt.

(** [show_branches()], lines 211-220. *)
Definition show_branches : M unit :=
  ok <- check_git_repo git ;;
  if negb ok then ret tt
  else
    print (Py.nl ++ "üåø Local branches (-vv):") ;;
    print_run_git git ["branch"; "-vv"] ;;
    print (Py.nl ++ "üåê Remote branches:") ;;
    print_run_git git ["branch"; "-r"] ;;
    print (Py.nl ++ "üóÇ All branches (local + remote):") ;;
    print_run_git git ["branch"; "-a"] ;; ret tt.

End Commands.

(* ===================================================================== *)
(** * Reading a history *)
(* ===================================================================== *)

(** The branch a [git] call deletes: [branch -d b], [branch -D b] and
    [push origin --delete b] delete [b]; no other call deletes. *)
Definition delete_target (e : event) : option string :=
  match e with
  | EvGit [verb; flag; b] _ =>
      if (String.eqb verb "branch" && (String.eqb flag "-d" || String.eqb flag "-D"))%bool
      then Some b else None
  | EvGit [verb; remote; flag; b] _ =>
      if (String.eqb verb "push" && String.eqb remote "origin" && String.eqb flag "--delete")%bool
      then Some b else None
  | _ => None
  end.

(** The calls of [git] that change the repository or the remote: checkout,
    pull, merge, push, tag, and branch with [-d] or [-D].  The others the
    program makes (rev-parse, branch --format, ls-remote, remote,
    merge-base, log, status) only read. *)
Definition mutating (args : list string) : bool :=
  match args with
  | verb :: rest =>
      Py.mem verb ["checkout"; "pull"; "merge"; "push"; "tag"]
      || (String.eqb verb "branch" &&
          match rest with
          | flag :: _ => String.eqb flag "-d" || String.eqb flag "-D"
          | [] => false
          end)
  | [] => false
  end.

(** An event with an effect outside the terminal: a mutating call of [git]
    or a write to the audit log. *)
Definition effectful (e : event) : bool :=
  match e with
  | EvGit args _ => mutating args
  | EvLog _ _ _ => true
  | _ => false
  end.

(** The argument lists of the [git] calls in a list of events. *)
Definition commands (l : list event) : list (list string) :=
  List.flat_map (fun e => match e with EvGit args _ => [args] | _ => [] end) l.

(** The messages written to the audit log in a list of events. *)
Definition logged (l : list event) : list string :=
  List.flat_map (fun e => match e with EvLog _ _ msg => [msg] | _ => [] end) l.

(** The prompts shown in a list of events, each with the line read. *)
Definition inputs (l : list event) : list (string * option string) :=
  List.flat_map (fun e => match e with EvInput p a => [(p, a)] | _ => [] end) l.

(** The texts printed in a list of events. *)
Definition printed (l : list event) : list string :=
  List.flat_map (fun e => match e with EvPrint t => [t] | _ => [] end) l.

(** The answers [confirm] takes as a yes, and the others. *)
Definition affirmative (answer : string) : bool :=
  String.eqb (Py.lower (Py.strip answer)) "y".

(** The answers [typed_confirm] accepts for [expected]. *)
Definition matches (expected answer : string) : bool :=
  String.eqb (Py.strip answer) expected.

(** The [git] calls in a list of events, each with the return code it got. *)
Definition results (l : list event) : list (list string * Z) :=
  List.flat_map
    (fun e => match e with EvGit args cp => [(args, returncode cp)] | _ => [] end) l.

(** The message of the audit log for a promotion to [chosen_main], line 422. *)
Definition promotion_msg (chosen_main : string) : string :=
  "Merged staging into " ++ chosen_main ++ " and pushed to origin".


(** The header the program prints above the commits that would be lost,
    line 298. *)
Definition unique_commits_header : string :=
  Py.nl ++ "Commits that are unique to the branch (would be lost):".

(** The lines read at the prompt of [typed_confirm] in a list of events. *)
Definition typed (l : list event) : list (option string) :=
  List.flat_map
    (fun e => match e with
              | EvInput p a =>
                  if String.eqb p "Type the exact text to confirm: " then [a] else []
              | _ => []
              end) l.

(** A call of [git] with the given arguments is in the list. *)
Definition issued (args : list string) (l : list event) : Prop :=
  exists cp, In (EvGit args cp) l.

(** No call of [git] is in the list. *)
Definition no_git (l : list event) : Prop :=
  Forall (fun e => match e with EvGit _ _ => False | _ => True end) l.

(** Nothing in the list changes the repository or the audit log. *)
Definition harmless (l : list event) : Prop :=
  Forall (fun e => effectful e = false) l.

(** A yes to [confirm]: a line was read and it is affirmative. *)
Definition said_yes (answer : option string) : bool :=
  match answer with Some a => affirmative a | None => false end.

(** An accepted [typed_confirm]: a line was read and it matches. *)
Definition typed_ok (expected : string) (answer : option string) : bool :=
  match answer with Some a => matches expected a | None => false end.

(** The prompt [confirm] shows for a question, line 38. *)
Definition yes_no (question : string) : string := question ++ " (y/n): ".

(** The prompt of [typed_confirm], line 44. *)
Definition typed_prompt : string := "Type the exact text to confirm: ".

(* ===================================================================== *)
(** * A sample repository *)
(* ===================================================================== *)

(** A small stand-in for [git] on a repository that stays as it is, to run
    the workflows on concrete inputs. *)
Module Sample.

Record repo := mk_repo {
  locals : list string;      (* the local branches *)
  on_origin : list string;   (* the branches of the remote origin *)
  head : string;             (* the branch checked out *)
  merged : list string;      (* the branches that are ancestors of any target *)
  dirty : bool;              (* uncommitted changes in the working tree *)
  conflict : bool            (* merging staging fails *)
}.

Definition ok (out : string) : CompletedProcess := mk_cp 0 out EmptyString.
Definition failed (err : string) : CompletedProcess := mk_cp 1 EmptyString err.

Definition unlines (l : list string) : string :=
  List.fold_right (fun x acc => x ++ Py.nl ++ acc) EmptyString l.

Definition tab : string := String "009" EmptyString.

Definition git (r : repo) (_ : list event) (args : list string) : CompletedProcess :=
  if bool_decide (args = ["rev-parse"; "--is-inside-work-tree"]) then ok ("true" ++ Py.nl)
  else if bool_decide (args = ["rev-parse"; "--show-toplevel"]) then ok ("/repo" ++ Py.nl)
  else if bool_decide (args = ["rev-parse"; "--abbrev-ref"; "HEAD"]) then ok (head r ++ Py.nl)
  else if bool_decide (args = ["branch"; "--format=%(refname:short)"]) then ok (unlines (locals r))
  else if bool_decide (args = ["ls-remote"; "--heads"; "origin"]) then
    ok (unlines (List.map (fun b => "5f2c1e9" ++ tab ++ "refs/heads/" ++ b) (on_origin r)))
  else if bool_decide (args = ["remote"]) then ok ("origin" ++ Py.nl)
  else if bool_decide (args = ["status"; "--porcelain"]) then
    ok (if dirty r then " M notes.txt" ++ Py.nl else EmptyString)
  else if bool_decide (args = ["merge"; "staging"]) then
    if conflict r then failed "CONFLICT (content): Merge conflict in notes.txt" else ok EmptyString
  else match args with
       | [verb; flag; source; _] =>
           if bool_decide (verb = "merge-base" /\ flag = "--is-ancestor") then
             if Py.mem source (merged r) then ok EmptyString else failed EmptyString
           else ok EmptyString
       | _ => ok EmptyString
       end.

(** The clock stands at 2024-03-09 07:05:01 UTC. *)
Definition clock (_ : list event) : datetime := mk_datetime 2024 3 9 7 5 1 250000.

Definition start (lines : list string) : world := mk_world lines [].


End Sample.

(* ===================================================================== *)
(** * Reasoning about runs *)
(* ===================================================================== *)

(** [spec m Q]: from every world, [m] only adds events to the history, and
    the events it adds (newest first) and its outcome satisfy [Q]. *)
Definition spec {A} (m : M A) (Q : list event -> outcome A -> Prop) : Prop :=
  forall w, exists new, events (m w).2 = (new ++ events w)%list /\ Q new (m w).1.

(** [only P m]: every event [m] adds satisfies [P]. *)
Definition only (P : event -> Prop) {A} (m : M A) : Prop :=
  spec m (fun new _ => Forall P new).

Lemma since_app (w w' : world) (new : list event) :
  events w' = (new ++ events w)%list -> since w w' = new.
Proof.
  intros E. unfold since. rewrite E, length_app.
  replace (length new + length (events w) - length (events w)) with (length new) by lia.
  rewrite firstn_app, Nat.sub_diag, firstn_all. simpl. apply app_nil_r.
Qed.

Lemma spec_weaken {A} (m : M A) (Q Q' : list event -> outcome A -> Prop) :
  spec m Q -> (forall new r, Q new r -> Q' new r) -> spec m Q'.
Proof.
  intros H HQ w. destruct (H w) as (new & E & HQw). exists new. split; auto.
Qed.

Lemma spec_ret {A} (a : A) (Q : list event -> outcome A -> Prop) :
  Q [] (Returned a) -> spec (ret a) Q.
Proof. intros H w. exists []. split; [reflexivity | exact H]. Qed.

Lemma spec_raise {A} (e : exn) (Q : list event -> outcome A -> Prop) :
  Q [] (Raised e) -> spec (raise e) Q.
Proof. intros H w. exists []. split; [reflexivity | exact H]. Qed.

Lemma spec_emit (e : event) (Q : list event -> outcome unit -> Prop) :
  Q [e] (Returned tt) -> spec (emit e) Q.
Proof. intros H w. exists [e]. split; [reflexivity | exact H]. Qed.

Lemma spec_input (prompt : string) (Q : list event -> outcome string -> Prop) :
  Q [EvInput prompt None] (Raised EOFError) ->
  (forall a, Q [EvInput prompt (Some a)] (Returned a)) ->
  spec (input prompt) Q.
Proof.
  intros H0 H1 w. unfold input. destruct (stdin w) as [|a rest]; simpl.
  - exists [EvInput prompt None]. split; [reflexivity | exact H0].
  - exists [EvInput prompt (Some a)]. split; [reflexivity | apply H1].
Qed.

Lemma spec_bind {A B} (m : M A) (k : A -> M B)
    (Q1 : list event -> outcome A -> Prop)
    (Q2 : A -> list event -> outcome B -> Prop)
    (Q : list event -> outcome B -> Prop) :
  spec m Q1 ->
  (forall a, spec (k a) (Q2 a)) ->
  (forall n1 e, Q1 n1 (Raised e) -> Q n1 (Raised e)) ->
  (forall n1 a n2 r, Q1 n1 (Returned a) -> Q2 a n2 r -> Q (n2 ++ n1)%list r) ->
  spec (bind m k) Q.
Proof.
  intros Hm Hk Hraise Hseq w. unfold bind.
  destruct (Hm w) as (n1 & E1 & H1).
  destruct (m w) as [[a|e] w1]; simpl in *.
  - destruct (Hk a w1) as (n2 & E2 & H2).
    exists (n2 ++ n1)%list. split.
    + rewrite E2, E1. apply app_assoc.
    + eapply Hseq; eauto.
  - exists n1. split; auto.
Qed.

Lemma only_ret (P : event -> Prop) {A} (a : A) : only P (ret a).
Proof. apply spec_ret. constructor. Qed.

Lemma only_raise (P : event -> Prop) {A} (e : exn) : only P (@raise A e).
Proof. apply spec_raise. constructor. Qed.

Lemma only_emit (P : event -> Prop) (e : event) : P e -> only P (emit e).
Proof. intros H. apply spec_emit. repeat constructor. exact H. Qed.

Lemma only_print (P : event -> Prop) (text : string) :
  P (EvPrint text) -> only P (print text).
Proof. apply only_emit. Qed.

Lemma only_input (P : event -> Prop) (prompt : string) :
  (forall a, P (EvInput prompt a)) -> only P (input prompt).
Proof. intros H. apply spec_input; intros; repeat constructor; apply H. Qed.

Lemma only_bind (P : event -> Prop) {A B} (m : M A) (k : A -> M B) :
  only P m -> (forall a, only P (k a)) -> only P (bind m k).
Proof.
  intros Hm Hk.
  apply (spec_bind m k (fun new _ => Forall P new) (fun _ new _ => Forall P new));
    auto.
  intros n1 a n2 r H1 H2. apply Forall_app. split; assumption.
Qed.

Lemma only_weaken (P P' : event -> Prop) {A} (m : M A) :
  only P m -> (forall e, P e -> P' e) -> only P' m.
Proof.
  intros H HP. eapply spec_weaken; [exact H |].
  intros new r HF. simpl in *. eapply Forall_impl; [exact HF | exact HP].
Qed.

(** What [only] says about one run. *)
Lemma only_run (P : event -> Prop) {A} (m : M A) (w : world) :
  only P m -> Forall P (since w (m w).2).
Proof.
  intros H. destruct (H w) as (new & E & HF).
  rewrite (since_app _ _ _ E). exact HF.
Qed.

Section Runs.

Variable git : list event -> list string -> CompletedProcess.
Variable clock : list event -> datetime.

Lemma spec_run_git (args : list string)
    (Q : list event -> outcome CompletedProcess -> Prop) :
  (forall cp, Q [EvGit args cp] (Returned cp)) -> spec (run_git git args) Q.
Proof.
  intros H w. exists [EvGit args (git (events w) args)]. split; [reflexivity | apply H].
Qed.

Lemma spec_utcnow (Q : list event -> outcome datetime -> Prop) :
  (forall t, Q [] (Returned t)) -> spec (utcnow clock) Q.
Proof. intros H w. exists []. split; [reflexivity | apply H]. Qed.

Lemma only_run_git (P : event -> Prop) (args : list string) :
  (forall cp, P (EvGit args cp)) -> only P (run_git git args).
Proof. intros H. apply spec_run_git. intros cp. repeat constructor. apply H. Qed.

Lemma only_utcnow (P : event -> Prop) : only P (utcnow clock).
Proof. apply spec_utcnow. constructor. Qed.

End Runs.

Create HintDb gitcheat.

#[local] Hint Unfold print_run_git confirm typed_confirm get_repo_root log_action
  get_current_branch list_local_branches list_remote_branches
  branch_exists_local branch_exists_remote choose_primary_branch is_merged_into
  show_commits_unique create_backup_tag is_working_tree_clean check_git_repo
  force_delete_gate delete_local_unmerged delete_local_merged delete_local_checked
  leave_current_branch local_delete_flow remote_delete_gate remote_delete_flow
  protected_branch_gate delete_selected delete_branch promote_final promote_sync
  promote_checked track_staging track_main resolve_branches push_staging_to_main
  orM print : gitcheat.

(** Walks through a program down to its primitive steps, leaving for each
    event it can add the goal that the event satisfies the predicate. *)
Ltac only_steps :=
  autounfold with gitcheat;
  repeat first
    [ apply only_bind; [| intros ?]
    | apply only_ret
    | apply only_raise
    | apply only_utcnow
    | apply only_emit
    | apply only_input; intros ?
    | apply only_run_git; intros ?
    | progress autounfold with gitcheat
    | match goal with
      | |- only _ (if ?b then _ else _) => destruct b
      | |- only _ (match ?x with _ => _ end) => destruct x
      | |- only _ (let _ := _ in _) => cbv zeta
      end ].

(* ===================================================================== *)
(** * Facts about the text primitives *)
(* ===================================================================== *)

Lemma length_append (s1 s2 : string) :
  String.length (s1 ++ s2) = String.length s1 + String.length s2.
Proof. induction s1 as [|c s1 IH]; simpl; [reflexivity | now rewrite IH]. Qed.

(** Two strings with a common ending differ before it. *)
Lemma append_inv_tail (s1 s2 t : string) : s1 ++ t = s2 ++ t -> s1 = s2.
Proof.
  intros H.
  assert (L : String.length s1 = String.length s2).
  { apply (f_equal String.length) in H. rewrite !length_append in H. lia. }
  revert s2 H L.
  induction s1 as [|c s1 IH]; intros [|c2 s2] H L; simpl in *;
    try discriminate; auto.
  injection H as -> H. f_equal. apply IH; auto.
Qed.

Lemma append_cons (c : ascii) (s t : string) : String c s ++ t = String c (s ++ t).
Proof. reflexivity. Qed.

Lemma append_nil_l (t : string) : EmptyString ++ t = t.
Proof. reflexivity. Qed.

Lemma append_nil_r (s : string) : s ++ EmptyString = s.
Proof. induction s as [|c s IH]; [reflexivity | now rewrite append_cons, IH]. Qed.

Lemma append_assoc (a b c : string) : (a ++ b) ++ c = a ++ (b ++ c).
Proof. induction a as [|x a IH]; [reflexivity | now rewrite !append_cons, IH]. Qed.

(** Pushes [++] through the characters that are known. *)
Ltac push_append := rewrite ?append_cons, ?append_nil_l.

Lemma lstrip_eq (s : string) :
  Py.lstrip s = match Py.skip_space s with Some r => Py.lstrip r | None => s end.
Proof.
  destruct s as [|c1 [|c2 [|c3 r3]]]; simpl; try reflexivity.
  - destruct (Py.isspace c1); reflexivity.
  - destruct (Py.isspace c1); [reflexivity |]. destruct (Py.isspace2 c1 c2); reflexivity.
  - destruct (Py.isspace c1); [reflexivity |]. destruct (Py.isspace2 c1 c2); [reflexivity |].
    destruct (Py.isspace3 c1 c2 c3); reflexivity.
Qed.

Lemma skip_space_app (s r t : string) :
  Py.skip_space s = Some r -> Py.skip_space (s ++ t) = Some (r ++ t).
Proof.
  destruct s as [|c1 [|c2 [|c3 r3]]]; push_append; simpl; try discriminate.
  - destruct (Py.isspace c1); [| discriminate]. now intros [= <-].
  - destruct (Py.isspace c1); [now intros [= <-] |].
    destruct (Py.isspace2 c1 c2); [| discriminate]. now intros [= <-].
  - destruct (Py.isspace c1); [now intros [= <-] |].
    destruct (Py.isspace2 c1 c2); [now intros [= <-] |].
    destruct (Py.isspace3 c1 c2 c3); [| discriminate]. now intros [= <-].
Qed.

Lemma skip_space_split (s r : string) :
  Py.skip_space s = Some r ->
  exists sp, s = sp ++ r /\ Py.skip_space sp = Some EmptyString.
Proof.
  destruct s as [|c1 [|c2 [|c3 r3]]]; simpl; try discriminate.
  - destruct (Py.isspace c1) eqn:E1; [| discriminate]. intros [= <-].
    exists (String c1 EmptyString). simpl. now rewrite E1.
  - destruct (Py.isspace c1) eqn:E1.
    + intros [= <-]. exists (String c1 EmptyString). simpl. now rewrite E1.
    + destruct (Py.isspace2 c1 c2) eqn:E2; [| discriminate]. intros [= <-].
      exists (String c1 (String c2 EmptyString)). simpl. now rewrite E1, E2.
  - destruct (Py.isspace c1) eqn:E1.
    + intros [= <-]. exists (String c1 EmptyString). simpl. now rewrite E1.
    + destruct (Py.isspace2 c1 c2) eqn:E2.
      * intros [= <-]. exists (String c1 (String c2 EmptyString)). simpl. now rewrite E1, E2.
      * destruct (Py.isspace3 c1 c2 c3) eqn:E3; [| discriminate]. intros [= <-].
        exists (String c1 (String c2 (String c3 EmptyString))). simpl. now rewrite E1, E2, E3.
Qed.

Lemma skip_space_shorter (s r : string) :
  Py.skip_space s = Some r -> String.length r < String.length s.
Proof.
  intros H. destruct (skip_space_split _ _ H) as (sp & -> & Hs).
  rewrite length_append. destruct sp; [discriminate | simpl; lia].
Qed.

Lemma whitespace_app (a b : string) : whitespace a -> whitespace b -> whitespace (a ++ b).
Proof.
  induction 1 as [|s r Hs _ IH]; intros Hb; [exact Hb |].
  apply (ws_skip _ (r ++ b)); [now apply skip_space_app | now apply IH].
Qed.

(** [lstrip] takes the whitespace off the front. *)
Lemma lstrip_whitespace (l t : string) : whitespace l -> Py.lstrip (l ++ t) = Py.lstrip t.
Proof.
  induction 1 as [|s r Hs _ IH]; [reflexivity |].
  rewrite lstrip_eq, (skip_space_app _ _ t Hs). exact IH.
Qed.

Lemma lstrip_front (s : string) : exists l, whitespace l /\ s = l ++ Py.lstrip s.
Proof.
  remember (String.length s) as n eqn:En. revert s En.
  induction n as [n IH] using lt_wf_ind. intros s ->.
  rewrite lstrip_eq. destruct (Py.skip_space s) as [r|] eqn:E.
  - destruct (skip_space_split _ _ E) as (sp & -> & Hsp).
    destruct (IH _ (skip_space_shorter _ _ E) r eq_refl) as (l & Hl & El).
    exists (sp ++ l). split.
    + apply whitespace_app; [| exact Hl]. apply (ws_skip _ _ Hsp), ws_nil.
    + rewrite append_assoc. now rewrite <- El.
  - exists EmptyString. split; [apply ws_nil | reflexivity].
Qed.

Lemma lstrip_bare (t : string) : Py.skip_space t = None -> Py.lstrip t = t.
Proof. intros H. now rewrite lstrip_eq, H. Qed.

Lemma blank_whitespace (s : string) : Py.blank s = true <-> whitespace s.
Proof.
  unfold Py.blank. split.
  - intros H. destruct (lstrip_front s) as (l & Hl & E).
    destruct (Py.lstrip s); [| discriminate]. rewrite append_nil_r in E. now subst.
  - intros H. rewrite <- (append_nil_r s), (lstrip_whitespace _ _ H). reflexivity.
Qed.

(** [rstrip] takes whitespace off the back, and nothing else. *)
Lemma rstrip_back (s : string) : exists r, whitespace r /\ s = Py.rstrip s ++ r.
Proof.
  induction s as [|c s (r & Hr & E)].
  - exists EmptyString. split; [apply ws_nil | reflexivity].
  - cbn [Py.rstrip]. destruct (Py.blank (String c s)) eqn:B.
    + exists (String c s). split; [now apply blank_whitespace | reflexivity].
    + exists r. split; [exact Hr |]. rewrite append_cons. now rewrite <- E.
Qed.

(** [strip] takes whitespace off both ends, and nothing else. *)
Lemma strip_trims (a : string) :
  exists l r, whitespace l /\ whitespace r /\ a = l ++ Py.strip a ++ r.
Proof.
  destruct (lstrip_front a) as (l & Hl & El).
  destruct (rstrip_back (Py.lstrip a)) as (r & Hr & Er).
  exists l, r. split; [exact Hl |]. split; [exact Hr |].
  unfold Py.strip. now rewrite <- Er.
Qed.

(** ** The bytes of a whitespace character *)

Lemma continuation_no_space (c : ascii) (x : string) :
  continuation c = true -> Py.skip_space (String c x) = None.
Proof.
  destruct c as [[] [] [] [] [] [] [] []]; vm_compute; try discriminate.
  all: intros _; destruct x as [|d [|e y]]; reflexivity.
Qed.

Lemma isspace2_continuation (c1 c2 : ascii) :
  Py.isspace2 c1 c2 = true -> continuation c2 = true.
Proof.
  unfold Py.isspace2. intros H. apply andb_true_iff in H. destruct H as [_ H].
  apply orb_true_iff in H. destruct H as [H | H]; apply Ascii.eqb_eq in H; now subst.
Qed.

Lemma isspace3_continuation (c1 c2 c3 : ascii) :
  Py.isspace3 c1 c2 c3 = true -> continuation c2 = true /\ continuation c3 = true.
Proof.
  unfold Py.isspace3, continuation. cbv zeta. intros H.
  repeat match type of H with
         | (_ || _)%bool = true => apply orb_true_iff in H; destruct H as [H | H]
         end.
  all: repeat match goal with
              | H : (_ && _)%bool = true |- _ => apply andb_true_iff in H; destruct H
              | H : (_ || _)%bool = true |- _ => apply orb_true_iff in H; destruct H
              | H : Ascii.eqb _ _ = true |- _ => apply Ascii.eqb_eq in H; subst
              | H : (_ <=? _)%N = true |- _ => apply N.leb_le in H
              end.
  all: split; try reflexivity.
  all: apply andb_true_iff; split; apply N.leb_le; lia.
Qed.

Lemma whitespace_inv (s : string) :
  whitespace s -> s <> EmptyString ->
  exists r, Py.skip_space s = Some r /\ whitespace r.
Proof. intros [|s' r H Hr] Hs; [contradiction | eauto]. Qed.

Lemma whitespace_starts (c : ascii) (x : string) :
  whitespace (String c x) -> continuation c = false.
Proof.
  intros H. destruct (whitespace_inv _ H ltac:(discriminate)) as (r & E & _).
  destruct (continuation c) eqn:C; [| reflexivity].
  rewrite (continuation_no_space _ _ C) in E. discriminate.
Qed.

(** Whitespace before whitespace: the characters do not straddle the
    joint. *)
Lemma whitespace_front (v r : string) :
  whitespace (v ++ r) -> whitespace r -> whitespace v.
Proof.
  remember (String.length v) as n eqn:En. revert v En.
  induction n as [n IH] using lt_wf_ind. intros v -> Hvr Hr.
  destruct v as [|c1 v1]; [apply ws_nil |].
  destruct (whitespace_inv _ Hvr ltac:(discriminate)) as (rest & E & Hrest).
  rewrite append_cons in E. cbn [Py.skip_space] in E.
  destruct (Py.isspace c1) eqn:E1.
  { injection E as <-.
    apply (ws_skip _ v1); [cbn; now rewrite E1 |].
    apply (IH (String.length v1)); [simpl; lia | reflexivity | assumption..]. }
  destruct v1 as [|c2 v2].
  { rewrite append_nil_l in E. destruct r as [|c2 r2]; [discriminate |].
    pose proof (whitespace_starts _ _ Hr) as C2.
    destruct (Py.isspace2 c1 c2) eqn:E2.
    - apply isspace2_continuation in E2. congruence.
    - destruct r2 as [|c3 r3]; [discriminate |].
      destruct (Py.isspace3 c1 c2 c3) eqn:E3; [| discriminate].
      apply isspace3_continuation in E3. destruct E3. congruence. }
  rewrite append_cons in E.
  destruct (Py.isspace2 c1 c2) eqn:E2.
  { injection E as <-.
    apply (ws_skip _ v2); [cbn; now rewrite E1, E2 |].
    apply (IH (String.length v2)); [simpl; lia | reflexivity | assumption..]. }
  destruct v2 as [|c3 v3].
  { rewrite append_nil_l in E. destruct r as [|c3 r3]; [discriminate |].
    pose proof (whitespace_starts _ _ Hr) as C3.
    destruct (Py.isspace3 c1 c2 c3) eqn:E3; [| discriminate].
    apply isspace3_continuation in E3. destruct E3. congruence. }
  rewrite append_cons in E.
  destruct (Py.isspace3 c1 c2 c3) eqn:E3; [| discriminate].
  injection E as <-.
  apply (ws_skip _ v3); [cbn; now rewrite E1, E2, E3 |].
  apply (IH (String.length v3)); [simpl; lia | reflexivity | assumption..].
Qed.

(** What does not start with whitespace does not start with it either
    when whitespace follows. *)
Lemma skip_space_none_app (t r : string) :
  Py.skip_space t = None -> t <> EmptyString -> whitespace r ->
  Py.skip_space (t ++ r) = None.
Proof.
  intros Ht Hn Hr.
  destruct t as [|c1 [|c2 [|c3 t3]]]; [contradiction | | |]; push_append;
    cbn [Py.skip_space] in *.
  - destruct (Py.isspace c1); [discriminate |].
    destruct r as [|c2 r2]; [reflexivity |].
    pose proof (whitespace_starts _ _ Hr) as C2.
    destruct (Py.isspace2 c1 c2) eqn:E2.
    { apply isspace2_continuation in E2. congruence. }
    destruct r2 as [|c3 r3]; [reflexivity |].
    destruct (Py.isspace3 c1 c2 c3) eqn:E3; [| reflexivity].
    apply isspace3_continuation in E3. destruct E3. congruence.
  - destruct (Py.isspace c1); [discriminate |].
    destruct (Py.isspace2 c1 c2); [discriminate |].
    destruct r as [|c3 r3]; [reflexivity |].
    pose proof (whitespace_starts _ _ Hr) as C3.
    destruct (Py.isspace3 c1 c2 c3) eqn:E3; [| reflexivity].
    apply isspace3_continuation in E3. destruct E3. congruence.
  - destruct (Py.isspace c1); [discriminate |].
    destruct (Py.isspace2 c1 c2); [discriminate |].
    destruct (Py.isspace3 c1 c2 c3); [discriminate | reflexivity].
Qed.

Lemma rstrip_bare (t r : string) :
  (forall u v, t = u ++ v -> whitespace v -> v = EmptyString) ->
  whitespace r -> Py.rstrip (t ++ r) = t.
Proof.
  intros Ht Hr. induction t as [|c t IH].
  - rewrite append_nil_l. destruct r as [|c r]; [reflexivity |].
    cbn [Py.rstrip]. now rewrite (proj2 (blank_whitespace _) Hr).
  - rewrite append_cons. cbn [Py.rstrip].
    destruct (Py.blank (String c (t ++ r))) eqn:B.
    + apply blank_whitespace in B. rewrite <- append_cons in B.
      pose proof (whitespace_front _ _ B Hr) as B'.
      discriminate (Ht EmptyString (String c t) eq_refl B').
    + f_equal. apply IH. intros u v -> Hv. exact (Ht (String c u) v eq_refl Hv).
Qed.

(** [strip] gives back what stands between the whitespace. *)
Lemma strip_bare (l t r : string) :
  whitespace l -> whitespace r -> bare t -> Py.strip (l ++ t ++ r) = t.
Proof.
  intros Hl Hr [Hf Hb]. unfold Py.strip. rewrite (lstrip_whitespace _ _ Hl).
  destruct t as [|c t].
  - rewrite append_nil_l.
    assert (E : Py.lstrip r = EmptyString).
    { apply blank_whitespace in Hr. unfold Py.blank in Hr.
      destruct (Py.lstrip r); [reflexivity | discriminate]. }
    now rewrite E.
  - rewrite lstrip_bare by (apply skip_space_none_app; [assumption | discriminate | assumption]).
    now apply rstrip_bare.
Qed.

(** A line matches a text with no whitespace at its ends exactly when it
    is the text between two strings of whitespace. *)
Lemma strip_iff (t a : string) :
  bare t ->
  (Py.strip a = t <->
   exists l r, whitespace l /\ whitespace r /\ a = l ++ t ++ r).
Proof.
  intros Ht. split.
  - intros <-. apply strip_trims.
  - intros (l & r & Hl & Hr & ->). now apply strip_bare.
Qed.

(** What [strip] leaves has no whitespace at its ends. *)
Lemma rstrip_no_back (s u v : string) :
  Py.rstrip s = u ++ v -> whitespace v -> v = EmptyString.
Proof.
  revert u. induction s as [|c s IH]; intros u E Hv.
  - destruct u; [exact (eq_sym E) | discriminate].
  - cbn [Py.rstrip] in E. destruct (Py.blank (String c s)) eqn:B.
    + destruct u; [exact (eq_sym E) | discriminate].
    + destruct u as [|d u].
      * rewrite append_nil_l in E. subst v.
        destruct (rstrip_back s) as (r & Hr & Es).
        pose proof (whitespace_app _ _ Hv Hr) as W.
        rewrite append_cons, <- Es in W.
        apply blank_whitespace in W. congruence.
      * rewrite append_cons in E. injection E as _ E. exact (IH u E Hv).
Qed.

Lemma lstrip_no_front (s : string) : Py.skip_space (Py.lstrip s) = None.
Proof.
  remember (String.length s) as n eqn:En. revert s En.
  induction n as [n IH] using lt_wf_ind. intros s ->.
  rewrite lstrip_eq. destruct (Py.skip_space s) as [r|] eqn:S; [| exact S].
  exact (IH _ (skip_space_shorter _ _ S) r eq_refl).
Qed.

Lemma strip_is_bare (a : string) : bare (Py.strip a).
Proof.
  unfold Py.strip. split; [| intros u v; apply rstrip_no_back].
  destruct (rstrip_back (Py.lstrip a)) as (r & Hr & E).
  destruct (Py.skip_space (Py.rstrip (Py.lstrip a))) as [x|] eqn:S; [| reflexivity].
  apply (skip_space_app _ _ r) in S. rewrite <- E, lstrip_no_front in S. discriminate.
Qed.

(** A text has no whitespace at its ends exactly when [strip] leaves it
    as it is. *)
Lemma bare_iff (t : string) : bare t <-> Py.strip t = t.
Proof.
  split.
  - intros H. rewrite <- (append_nil_r t) at 1.
    exact (strip_bare EmptyString t EmptyString ws_nil ws_nil H).
  - intros <-. apply strip_is_bare.
Qed.

Ltac in_table := vm_compute; repeat (first [left; reflexivity | right]).

Lemma isspace_chars (c : ascii) :
  Py.isspace c = true -> In (String c EmptyString) whitespace_chars.
Proof.
  destruct c as [[] [] [] [] [] [] [] []]; vm_compute; try discriminate.
  all: intros _; repeat (first [left; reflexivity | right]).
Qed.

Lemma isspace2_chars (c1 c2 : ascii) :
  Py.isspace2 c1 c2 = true -> In (String c1 (String c2 EmptyString)) whitespace_chars.
Proof.
  unfold Py.isspace2. intros H. apply andb_true_iff in H. destruct H as [H1 H].
  apply Ascii.eqb_eq in H1. subst c1.
  apply orb_true_iff in H. destruct H as [H | H]; apply Ascii.eqb_eq in H; subst c2; in_table.
Qed.

Lemma isspace3_chars (c1 c2 c3 : ascii) :
  Py.isspace3 c1 c2 c3 = true ->
  In (String c1 (String c2 (String c3 EmptyString))) whitespace_chars.
Proof.
  unfold Py.isspace3. cbv zeta. intros H.
  repeat match type of H with
         | (_ || _)%bool = true => apply orb_true_iff in H; destruct H as [H | H]
         end.
  all: repeat match goal with
              | H : (_ && _)%bool = true |- _ => apply andb_true_iff in H; destruct H
              | H : (_ || _)%bool = true |- _ => apply orb_true_iff in H; destruct H
              | H : Ascii.eqb _ _ = true |- _ => apply Ascii.eqb_eq in H; subst
              end.
  all: try solve [in_table].
  destruct c3 as [[] [] [] [] [] [] [] []];
    match goal with
    | H1 : (_ <=? _)%N = true, H2 : (_ <=? _)%N = true |- _ =>
        vm_compute in H1, H2; try discriminate H1; try discriminate H2
    end.
  all: in_table.
Qed.

(** The whitespace character at the front of a string is one of the
    table, and every one of the table is found. *)
Lemma skip_space_chars (s r : string) :
  Py.skip_space s = Some r <-> exists c, In c whitespace_chars /\ s = c ++ r.
Proof.
  split.
  - destruct s as [|c1 s1]; [discriminate |]. cbn [Py.skip_space].
    destruct (Py.isspace c1) eqn:E1.
    { intros [= <-]. eexists. split; [exact (isspace_chars _ E1) | reflexivity]. }
    destruct s1 as [|c2 s2]; [discriminate |].
    destruct (Py.isspace2 c1 c2) eqn:E2.
    { intros [= <-]. eexists. split; [exact (isspace2_chars _ _ E2) | reflexivity]. }
    destruct s2 as [|c3 s3]; [discriminate |].
    destruct (Py.isspace3 c1 c2 c3) eqn:E3; [| discriminate].
    intros [= <-]. eexists. split; [exact (isspace3_chars _ _ _ E3) | reflexivity].
  - intros (c & Hin & ->). vm_compute in Hin.
    repeat destruct Hin as [<- | Hin]; try contradiction; reflexivity.
Qed.

(** A string is whitespace exactly when it is made of characters of the
    table. *)
Lemma whitespace_chars_only (s : string) :
  whitespace s <->
  exists cs, Forall (fun c => In c whitespace_chars) cs /\
             s = List.fold_right String.append EmptyString cs.
Proof.
  split.
  - induction 1 as [|s r H _ (cs & Hcs & ->)].
    + exists []. split; [constructor | reflexivity].
    + apply skip_space_chars in H. destruct H as (c & Hc & ->).
      exists (c :: cs). split; [now constructor | reflexivity].
  - intros (cs & Hcs & ->). induction Hcs as [|c cs Hc _ IH]; [apply ws_nil |].
    cbn [fold_right]. apply (ws_skip _ (fold_right String.append EmptyString cs)); [| exact IH].
    apply skip_space_chars. now exists c.
Qed.

(** The only strings that [lower] sends to ["y"]. *)
Lemma lower_y (t : string) : Py.lower t = "y" <-> t = "y" \/ t = "Y".
Proof.
  split.
  - destruct t as [|c [|c' r]]; simpl; try discriminate.
    intros H. injection H as H.
    destruct c as [[] [] [] [] [] [] [] []]; vm_compute in H;
      try discriminate; auto.
  - intros [-> | ->]; reflexivity.
Qed.

Lemma digits4 (y : N) : (y < 10000)%N ->
  (1000 * ((y / 1000) mod 10) + 100 * ((y / 100) mod 10)
   + 10 * ((y / 10) mod 10) + y mod 10 = y)%N.
Proof.
  intros H.
  assert (Ha : (y / 10 / 10 = y / 100)%N) by (rewrite N.Div0.div_div; reflexivity).
  assert (Hb : (y / 100 / 10 = y / 1000)%N) by (rewrite N.Div0.div_div; reflexivity).
  pose proof (N.div_mod y 10 ltac:(lia)) as E0.
  pose proof (N.div_mod (y / 10) 10 ltac:(lia)) as E1.
  pose proof (N.div_mod (y / 100) 10 ltac:(lia)) as E2.
  rewrite Ha in E1. rewrite Hb in E2.
  assert (Hc : (y / 1000 < 10)%N) by (apply N.Div0.div_lt_upper_bound; lia).
  rewrite (N.mod_small (y / 1000) 10) by exact Hc.
  lia.
Qed.

Lemma digits2 (y : N) : (y < 100)%N -> (10 * ((y / 10) mod 10) + y mod 10 = y)%N.
Proof.
  intros H.
  rewrite (N.mod_small (y / 10) 10) by (apply N.Div0.div_lt_upper_bound; lia).
  pose proof (N.div_mod y 10 ltac:(lia)) as E0. lia.
Qed.

(** The value of a decimal digit character. *)
Definition digit_value (c : ascii) : N := (N_of_ascii c - 48)%N.

Definition isdigit (c : ascii) : bool :=
  ((48 <=? N_of_ascii c)%N && (N_of_ascii c <=? 57)%N)%bool.

Lemma digit_value_digit (d : N) : digit_value (digit d) = (d mod 10)%N.
Proof.
  unfold digit_value, digit.
  pose proof (N.mod_upper_bound d 10 ltac:(lia)) as H.
  generalize dependent (d mod 10)%N. intros m H.
  rewrite N_ascii_embedding; lia.
Qed.

Lemma isdigit_digit (d : N) : isdigit (digit d) = true.
Proof.
  unfold isdigit, digit.
  pose proof (N.mod_upper_bound d 10 ltac:(lia)) as H.
  generalize dependent (d mod 10)%N. intros m H.
  rewrite N_ascii_embedding by lia.
  apply andb_true_intro. split; apply N.leb_le; lia.
Qed.

(** The number a string of decimal digits denotes. *)
Definition number (s : string) : N :=
  List.fold_left (fun acc c => (10 * acc + digit_value c)%N)
    (list_ascii_of_string s) 0%N.

(** A compact UTC timestamp: [YYYYMMDD], the letter T, [HHMMSS], the
    letter Z. *)
Definition compact_utc (s : string) : bool :=
  match list_ascii_of_string s with
  | [y1; y2; y3; y4; m1; m2; d1; d2; t; h1; h2; n1; n2; s1; s2; z] =>
      forallb isdigit [y1; y2; y3; y4; m1; m2; d1; d2; h1; h2; n1; n2; s1; s2]
      && Ascii.eqb t "T" && Ascii.eqb z "Z"
  | _ => false
  end.

(** The fields a compact timestamp shows: year, month, day, hour, minute,
    second. *)
Definition compact_fields (s : string) : list N :=
  [ number (String.substring 0 4 s); number (String.substring 4 2 s);
    number (String.substring 6 2 s); number (String.substring 9 2 s);
    number (String.substring 11 2 s); number (String.substring 13 2 s) ].

Lemma compact_utc_strftime (t : datetime) : compact_utc (strftime_compact t) = true.
Proof.
  unfold compact_utc, strftime_compact, fmt4, fmt2. simpl.
  rewrite !isdigit_digit. reflexivity.
Qed.

Lemma compact_fields_strftime (t : datetime) :
  valid_datetime t ->
  compact_fields (strftime_compact t) =
  [year t; month t; day t; hour t; minute t; second t].
Proof.
  intros (Hy & Hm & Hd & Hh & Hn & Hs & _).
  unfold compact_fields, strftime_compact, fmt4, fmt2, number. simpl.
  rewrite !digit_value_digit.
  repeat f_equal.
  - rewrite <- (digits4 (year t)) at 5 by lia. lia.
  - rewrite <- (digits2 (month t)) at 3 by lia. lia.
  - rewrite <- (digits2 (day t)) at 3 by lia. lia.
  - rewrite <- (digits2 (hour t)) at 3 by lia. lia.
  - rewrite <- (digits2 (minute t)) at 3 by lia. lia.
  - rewrite <- (digits2 (second t)) at 3 by lia. lia.
Qed.

Lemma strftime_compact_same_second (t1 t2 : datetime) :
  same_second t1 t2 -> strftime_compact t1 = strftime_compact t2.
Proof.
  intros (Hy & Hm & Hd & Hh & Hn & Hs).
  unfold strftime_compact. now rewrite Hy, Hm, Hd, Hh, Hn, Hs.
Qed.

(* ===================================================================== *)
(** * The confirmation gate *)
(* ===================================================================== *)

(** What [confirm] does on the next line typed. *)
Lemma confirm_run (prompt a : string) (rest : list string) (h : list event) :
  confirm prompt (mk_world (a :: rest) h) =
  (Returned (affirmative a),
   mk_world rest (EvInput (prompt ++ " (y/n): ") (Some a) :: h)).
Proof. reflexivity. Qed.

Lemma confirm_eof (prompt : string) (h : list event) :
  confirm prompt (mk_world [] h) =
  (Raised EOFError, mk_world [] (EvInput (prompt ++ " (y/n): ") None :: h)).
Proof. reflexivity. Qed.

(** What [typed_confirm] does on the next line typed. *)
Lemma typed_confirm_run (prompt expected a : string) (rest : list string)
    (h : list event) :
  typed_confirm prompt expected (mk_world (a :: rest) h) =
  (Returned (matches expected a),
   mk_world rest (EvInput typed_prompt (Some a) :: EvPrint prompt :: h)).
Proof. reflexivity. Qed.

Lemma typed_confirm_eof (prompt expected : string) (h : list event) :
  typed_confirm prompt expected (mk_world [] h) =
  (Raised EOFError, mk_world [] (EvInput typed_prompt None :: EvPrint prompt :: h)).
Proof. reflexivity. Qed.

(** What trimming is: [strip a] is the one text with no whitespace at its
    ends that stands in [a] between two strings of whitespace. *)
Lemma strip_spec (a : string) :
  exists l r, whitespace l /\ whitespace r /\ a = l ++ Py.strip a ++ r /\ bare (Py.strip a).
Proof.
  destruct (strip_trims a) as (l & r & Hl & Hr & E).
  exists l, r. repeat split; try assumption; apply strip_is_bare.
Qed.

(** The lines [confirm] takes as a yes: y or Y between whitespace. *)
Lemma affirmative_iff (a : string) :
  affirmative a = true <->
  exists l r, whitespace l /\ whitespace r /\ (a = l ++ "y" ++ r \/ a = l ++ "Y" ++ r).
Proof.
  unfold affirmative. rewrite String.eqb_eq, lower_y.
  assert (By : bare "y") by (apply bare_iff; reflexivity).
  assert (BY : bare "Y") by (apply bare_iff; reflexivity).
  rewrite (strip_iff "y" a By), (strip_iff "Y" a BY). split.
  - intros [(l & r & Hl & Hr & E) | (l & r & Hl & Hr & E)]; exists l, r; auto.
  - intros (l & r & Hl & Hr & [E | E]); [left | right]; exists l, r; auto.
Qed.

(** C10.  [confirm] answers yes exactly when the line read, with the
    whitespace at its ends trimmed and then lowercased, is the single
    character y.  Trimming is pinned down: the trimmed line is the one text
    without whitespace at its ends that stands in the line between two
    strings of whitespace characters, and these are the characters of
    [whitespace_chars], the no-break space and the others outside ASCII
    among them.  So the answer is a yes exactly when the line is y or Y
    between whitespace; every other line, yes among them, is a decline, and
    the line is consumed either way. *)
Theorem C10_confirm_affirmative_iff_y :
  forall (prompt : string) (w : world),
    ((confirm prompt w).1 = Returned true <->
     exists a rest, stdin w = a :: rest /\ Py.lower (Py.strip a) = "y") /\
    ((confirm prompt w).1 = Returned false <->
     exists a rest, stdin w = a :: rest /\ Py.lower (Py.strip a) <> "y") /\
    (forall a, Py.lower (Py.strip a) = "y" <-> Py.strip a = "y" \/ Py.strip a = "Y") /\
    (forall rest h, (confirm prompt (mk_world ("yes" :: rest) h)).1 = Returned false) /\
    (forall a, exists l r,
        whitespace l /\ whitespace r /\ a = l ++ Py.strip a ++ r /\ bare (Py.strip a)) /\
    (forall l t r, whitespace l -> whitespace r -> bare t -> Py.strip (l ++ t ++ r) = t) /\
    (forall s, whitespace s <->
               exists cs, Forall (fun c => In c whitespace_chars) cs /\
                          s = List.fold_right String.append EmptyString cs) /\
    ((confirm prompt w).1 = Returned true <->
     exists a rest l r, stdin w = a :: rest /\ whitespace l /\ whitespace r /\
                        (a = l ++ "y" ++ r \/ a = l ++ "Y" ++ r)) /\
    ((confirm prompt w).1 = Returned false <->
     exists a rest, stdin w = a :: rest /\
       forall l r, whitespace l -> whitespace r -> a <> l ++ "y" ++ r /\ a <> l ++ "Y" ++ r) /\
    (forall a rest h, stdin (confirm prompt (mk_world (a :: rest) h)).2 = rest) /\
    (forall a rest h,
        In a ["y"; "Y"; " y "; utf8 [9] ++ "Y" ++ utf8 [13];
              "y" ++ utf8 [194; 160]; utf8 [226; 128; 131] ++ "Y" ++ utf8 [227; 128; 128]] ->
        (confirm prompt (mk_world (a :: rest) h)).1 = Returned true) /\
    (forall a rest h,
        In a [EmptyString; "n"; "yes"; "Yes"; " yes "; "y y"; "yy"; "y."; "ok";
              "y" ++ utf8 [226; 128; 139]] ->
        (confirm prompt (mk_world (a :: rest) h)).1 = Returned false).
Proof.
  intros prompt w.
  assert (Hyes : (confirm prompt w).1 = Returned true <->
                 exists a rest, stdin w = a :: rest /\ affirmative a = true).
  { destruct w as [[|a rest] h].
    - rewrite confirm_eof. split; [discriminate | intros (a & rest & E & _); discriminate].
    - rewrite confirm_run. cbn [fst stdin]. split.
      + intros H. injection H as H. now exists a, rest.
      + intros (a' & rest' & E & H). injection E as <- <-. now rewrite H. }
  assert (Hno : (confirm prompt w).1 = Returned false <->
                exists a rest, stdin w = a :: rest /\ affirmative a = false).
  { destruct w as [[|a rest] h].
    - rewrite confirm_eof. split; [discriminate | intros (a & rest & E & _); discriminate].
    - rewrite confirm_run. cbn [fst stdin]. split.
      + intros H. injection H as H. now exists a, rest.
      + intros (a' & rest' & E & H). injection E as <- <-. now rewrite H. }
  split; [| split; [| split; [| split; [| split; [| split; [| split;
    [| split; [| split; [| split; [| split]]]]]]]]]].
  - rewrite Hyes. split; intros (a & rest & E & H); exists a, rest; (split; [exact E |]).
    + now apply String.eqb_eq.
    + now apply String.eqb_eq.
  - rewrite Hno. split; intros (a & rest & E & H); exists a, rest; (split; [exact E |]).
    + now apply String.eqb_neq.
    + now apply String.eqb_neq.
  - intros a. apply lower_y.
  - reflexivity.
  - apply strip_spec.
  - intros l t r Hl Hr Ht. now apply strip_bare.
  - apply whitespace_chars_only.
  - rewrite Hyes. split.
    + intros (a & rest & E & H). apply affirmative_iff in H.
      destruct H as (l & r & Hl & Hr & H). now exists a, rest, l, r.
    + intros (a & rest & l & r & E & Hl & Hr & H). exists a, rest. split; [exact E |].
      apply affirmative_iff. now exists l, r.
  - rewrite Hno. split.
    + intros (a & rest & E & H). exists a, rest. split; [exact E |].
      intros l r Hl Hr.
      split; intros Ea;
        (assert (Hy : affirmative a = true)
           by (apply affirmative_iff; exists l, r; auto)); congruence.
    + intros (a & rest & E & H). exists a, rest. split; [exact E |].
      destruct (affirmative a) eqn:Ha; [| reflexivity].
      apply affirmative_iff in Ha. destruct Ha as (l & r & Hl & Hr & Ha).
      destruct (H l r Hl Hr) as [H1 H2]. destruct Ha; contradiction.
  - reflexivity.
  - intros a rest h Hin. rewrite confirm_run. cbn [fst].
    repeat destruct Hin as [<- | Hin]; try contradiction; reflexivity.
  - intros a rest h Hin. rewrite confirm_run. cbn [fst].
    repeat destruct Hin as [<- | Hin]; try contradiction; reflexivity.
Qed.

Lemma matches_iff (expected a : string) :
  matches expected a = true <-> Py.strip a = expected.
Proof. unfold matches. apply String.eqb_eq. Qed.

(** [wp m w Q]: run from [w], [m] only adds events to the history, and the
    events it adds (newest first), its outcome and the world it leaves
    satisfy [Q]. *)
Definition wp {A} (m : M A) (w : world)
    (Q : list event -> outcome A -> world -> Prop) : Prop :=
  exists new, events (m w).2 = (new ++ events w)%list /\ Q new (m w).1 (m w).2.

Lemma wp_ret {A} (a : A) w (Q : list event -> outcome A -> world -> Prop) :
  Q [] (Returned a) w -> wp (ret a) w Q.
Proof. intros H. exists []. split; [reflexivity | exact H]. Qed.

Lemma wp_raise {A} (e : exn) w (Q : list event -> outcome A -> world -> Prop) :
  Q [] (Raised e) w -> wp (raise e) w Q.
Proof. intros H. exists []. split; [reflexivity | exact H]. Qed.

Lemma wp_emit (e : event) w (Q : list event -> outcome unit -> world -> Prop) :
  Q [e] (Returned tt) (mk_world (stdin w) (e :: events w)) -> wp (emit e) w Q.
Proof. intros H. exists [e]. split; [reflexivity | exact H]. Qed.

Lemma wp_input (prompt : string) w
    (Q : list event -> outcome string -> world -> Prop) :
  match stdin w with
  | [] => Q [EvInput prompt None] (Raised EOFError)
            (mk_world [] (EvInput prompt None :: events w))
  | a :: rest => Q [EvInput prompt (Some a)] (Returned a)
                   (mk_world rest (EvInput prompt (Some a) :: events w))
  end ->
  wp (input prompt) w Q.
Proof.
  unfold wp, input. destruct (stdin w) as [|a rest]; simpl; intros H;
    eexists [_]; split; try reflexivity; exact H.
Qed.

Lemma wp_bind {A B} (m : M A) (k : A -> M B) w
    (Q : list event -> outcome B -> world -> Prop) :
  wp m w (fun n1 r1 w1 =>
            match r1 with
            | Returned a => wp (k a) w1 (fun n2 r w2 => Q (n2 ++ n1)%list r w2)
            | Raised e => Q n1 (Raised e) w1
            end) ->
  wp (bind m k) w Q.
Proof.
  unfold wp, bind. intros (n1 & E1 & H).
  destruct (m w) as [[a|e] w1]; simpl in *.
  - destruct H as (n2 & E2 & H). exists (n2 ++ n1)%list. split; [| exact H].
    rewrite E2, E1. apply app_assoc.
  - exists n1. split; assumption.
Qed.

(** A block whose [spec] is known can be run as a whole. *)
Lemma wp_spec {A} (m : M A) (Q' : list event -> outcome A -> Prop) w
    (Q : list event -> outcome A -> world -> Prop) :
  spec m Q' -> (forall new r w1, Q' new r -> Q new r w1) -> wp m w Q.
Proof.
  intros Hs HQ. destruct (Hs w) as (new & E & H). exists new. split; auto.
Qed.

Lemma spec_wp {A} (m : M A) (Q : list event -> outcome A -> Prop) :
  (forall w, wp m w (fun new r _ => Q new r)) -> spec m Q.
Proof. intros H w. exact (H w). Qed.

(** What [wp] says about the run itself. *)
Lemma wp_run {A} (m : M A) w (Q : list event -> outcome A -> world -> Prop) :
  wp m w Q -> Q (since w (m w).2) (m w).1 (m w).2.
Proof. intros (new & E & H). now rewrite (since_app _ _ _ E). Qed.

Section Steps.

Variable git : list event -> list string -> CompletedProcess.
Variable clock : list event -> datetime.

Lemma wp_run_git (args : list string) w
    (Q : list event -> outcome CompletedProcess -> world -> Prop) :
  (let cp := git (events w) args in
   Q [EvGit args cp] (Returned cp) (mk_world (stdin w) (EvGit args cp :: events w))) ->
  wp (run_git git args) w Q.
Proof. intros H. eexists [_]. split; [reflexivity | exact H]. Qed.

Lemma wp_utcnow w (Q : list event -> outcome datetime -> world -> Prop) :
  Q [] (Returned (clock (events w))) w -> wp (utcnow clock) w Q.
Proof. intros H. exists []. split; [reflexivity | exact H]. Qed.

End Steps.

(** The constant at the head of an application. *)
Ltac head_of t :=
  lazymatch t with
  | ?f _ => head_of f
  | _ => t
  end.

(** A test whose result is among the hypotheses. *)
Ltac known_test :=
  match goal with
  | H : ?c = true |- wp (if ?b then _ else _) _ _ =>
      match b with context [c] => rewrite H end
  | H : ?c = false |- wp (if ?b then _ else _) _ _ =>
      match b with context [c] => rewrite H end
  end;
  cbn [negb andb orb].

(** One step of a run: a primitive is executed, a decision of the program
    is taken both ways unless the hypotheses settle it, a block is opened.
    [known] gets the first try, to run a block by its [spec]. *)
Ltac wp_step known :=
  cbv beta iota; cbn [stdin events Py.show Py.truthy];
  first
    [ known
    | lazymatch goal with
      | |- wp (bind _ _) _ _ => apply wp_bind
      | |- wp (ret _) _ _ => apply wp_ret
      | |- wp (raise _) _ _ => apply wp_raise
      | |- wp (emit _) _ _ => apply wp_emit
      | |- wp (input _) _ _ => apply wp_input
      | |- wp (run_git _ _) _ _ => apply wp_run_git; intros ?cp
      | |- wp (utcnow _) _ _ => apply wp_utcnow
      | |- wp (if ?b then _ else _) _ _ =>
          first [ known_test
                | lazymatch b with
                  | negb ?c => destruct c eqn:?; cbn [negb]
                  | _ => destruct b eqn:?
                  end ]
      | |- wp (match ?x with _ => _ end) _ _ => destruct x eqn:?
      | |- wp (let _ := _ in _) _ _ => cbv zeta
      | |- match stdin ?w with [] => _ | _ :: _ => _ end =>
          first [ match goal with H : stdin w = _ |- _ => rewrite H end
                | destruct (stdin w) eqn:? ]
      | |- match ?r with Returned _ => _ | Raised _ => _ end => destruct r
      | |- match ?l with [] => _ | _ :: _ => _ end => destruct l
      | |- wp ?m _ _ => let h := head_of m in unfold h
      end ].

Ltac wp_steps known := repeat wp_step known.

(** A block is run by the [spec] lemma given. *)
Ltac by_spec lem :=
  idtac;
  lazymatch goal with
  | |- wp (bind _ _) _ _ => fail
  | |- wp (ret _) _ _ => fail
  | |- wp (raise _) _ _ => fail
  | |- wp (emit _) _ _ => fail
  | |- wp (input _) _ _ => fail
  | |- wp (if _ then _ else _) _ _ => fail
  | |- wp _ _ _ => eapply wp_spec; [apply lem | cbv beta; intros ?new ?r ?w ?]
  | _ => fail
  end.

Ltac no_block := fail.

(** A computation whose run from the current world is given by a
    hypothesis, together with the events it added. *)
Lemma wp_eq {A} (m : M A) w r w1 new
    (Q : list event -> outcome A -> world -> Prop) :
  m w = (r, w1) -> events w1 = (new ++ events w)%list -> Q new r w1 -> wp m w Q.
Proof. intros E Ev H. exists new. rewrite E. split; assumption. Qed.

Ltac by_run :=
  idtac;
  match goal with
  | H : ?m ?w = (_, ?w1), E : events ?w1 = (_ ++ events ?w)%list |- wp ?m ?w _ =>
      apply (wp_eq _ _ _ _ _ _ H E)
  end.

(** States the goal, which speaks of one run of [m] from [w], as a [wp]. *)
Ltac as_wp :=
  lazymatch goal with
  | |- context [since ?w (?m ?w).2] =>
      let N := fresh "N" in
      let R := fresh "R" in
      let W := fresh "W" in
      set (N := since w (m w).2); set (R := (m w).1); set (W := (m w).2);
      pattern N, R, W; subst N R W; apply wp_run
  end.

(** Turns the tests on strings the program made into equations. *)
Ltac tests :=
  repeat match goal with
         | H : String.eqb _ _ = true |- _ => apply String.eqb_eq in H
         | H : String.eqb _ _ = false |- _ => apply String.eqb_neq in H
         | H : negb _ = true |- _ => apply negb_true_iff in H
         | H : negb _ = false |- _ => apply negb_false_iff in H
         end.

(** An event is in an explicit list. *)
Ltac found :=
  solve [ unfold issued; eexists; simpl; eauto 20 | simpl; eauto 20 ].

(** An event is not in an explicit list. *)
Ltac absent :=
  unfold issued in *;
  repeat match goal with
         | H : exists _, _ |- _ => destruct H
         | H : In _ _ |- _ => simpl in H
         | H : _ \/ _ |- _ => destruct H
         | H : False |- _ => contradiction
         | H : _ = _ |- _ => discriminate H
         | H : _ = _ |- _ => solve [inversion H; congruence]
         end.

(** Every event of an explicit list is print, prompt or query. *)
Ltac quiet := unfold no_git, harmless; repeat constructor.

(* ===================================================================== *)
(** * Reading the parts of a history *)
(* ===================================================================== *)

Lemma commands_app (l1 l2 : list event) :
  commands (l1 ++ l2) = (commands l1 ++ commands l2)%list.
Proof. apply flat_map_app. Qed.

Lemma inputs_app (l1 l2 : list event) :
  inputs (l1 ++ l2) = (inputs l1 ++ inputs l2)%list.
Proof. apply flat_map_app. Qed.

Lemma logged_app (l1 l2 : list event) :
  logged (l1 ++ l2) = (logged l1 ++ logged l2)%list.
Proof. apply flat_map_app. Qed.



Lemma harmless_app (l1 l2 : list event) :
  harmless (l1 ++ l2) <-> harmless l1 /\ harmless l2.
Proof. apply Forall_app. Qed.


Lemma in_inputs (p : string) (a : option string) (l : list event) :
  In (EvInput p a) l <-> In (p, a) (inputs l).
Proof.
  unfold inputs. rewrite in_flat_map. split.
  - intros H. exists (EvInput p a). split; [exact H | now left].
  - intros ([ | p' a' | | ] & H & Hin); simpl in Hin; try contradiction.
    destruct Hin as [E | []]. injection E as <- <-. exact H.
Qed.

Lemma in_logged (msg : string) (l : list event) :
  In msg (logged l) <-> exists path ts, In (EvLog path ts msg) l.
Proof.
  unfold logged. rewrite in_flat_map. split.
  - intros ([ | | | path ts msg'] & H & Hin); simpl in Hin; try contradiction.
    destruct Hin as [<- | []]. now exists path, ts.
  - intros (path & ts & H). exists (EvLog path ts msg). split; [exact H | now left].
Qed.

(* ===================================================================== *)
(** * The blocks of the delete workflow *)
(* ===================================================================== *)

(** Closes the goal of a gate: the prompt shown, the commands issued under
    each answer, and nothing done on a decline. *)
Ltac gate_goal :=
  simpl; eexists; split; [reflexivity |];
  cbn [typed_ok said_yes]; unfold matches, affirmative;
  repeat match goal with H : String.eqb _ _ = _ |- _ => rewrite H end;
  split; [reflexivity | intros; try discriminate; quiet].

Section DeleteBlocks.

Variable git : list event -> list string -> CompletedProcess.
Variable clock : list event -> datetime.

(** [choose_primary_branch] asks [git] for the local branches, once. *)
Lemma choose_primary_branch_spec :
  spec (choose_primary_branch git)
    (fun new r => exists cp, new = [EvGit ["branch"; "--format=%(refname:short)"] cp]).
Proof. apply spec_wp. intros w. wp_steps no_block; simpl; eauto. Qed.

(** [is_merged_into] asks [git merge-base --is-ancestor], once, and
    returns whether the answer was 0. *)
Lemma is_merged_into_spec (source target : string) :
  spec (is_merged_into git source target)
    (fun new r => exists cp,
       new = [EvGit ["merge-base"; "--is-ancestor"; source; target] cp] /\
       r = Returned (returncode cp =? 0)%Z).
Proof. apply spec_wp. intros w. wp_steps no_block; simpl; eauto. Qed.


(** Lines 304-314: one typed confirmation, [branch -D] on a match and
    nothing on any other line. *)
Lemma force_delete_gate_spec root branch :
  spec (force_delete_gate git clock root branch)
    (fun new r =>
       exists ans,
         inputs new = [(typed_prompt, ans)] /\
         commands new = (if typed_ok branch ans then [["branch"; "-D"; branch]] else []) /\
         (typed_ok branch ans = false -> harmless new)).
Proof. apply spec_wp. intros w. wp_steps no_block; gate_goal. Qed.

(** Lines 330-341: one typed confirmation, [push origin --delete] on a
    match and nothing on any other line. *)
Lemma remote_delete_gate_spec root branch :
  spec (remote_delete_gate git clock root branch)
    (fun new r =>
       exists ans,
         inputs new = [(typed_prompt, ans)] /\
         commands new =
           (if typed_ok branch ans then [["push"; "origin"; "--delete"; branch]] else []) /\
         (typed_ok branch ans = false -> harmless new)).
Proof. apply spec_wp. intros w. wp_steps no_block; gate_goal. Qed.

End DeleteBlocks.

(* ===================================================================== *)
(** * The blocks of the promote workflow *)
(* ===================================================================== *)

(** Turns the tests on return codes the program made into equations. *)
Ltac codes :=
  repeat match goal with
         | H : (_ =? _)%Z = true |- _ => apply Z.eqb_eq in H
         | H : (_ =? _)%Z = false |- _ => apply Z.eqb_neq in H
         end.

Section PromoteBlocks.

Variable git : list event -> list string -> CompletedProcess.
Variable clock : list event -> datetime.

(** Lines 402-424 end in one of three ways: the phrase is not typed and
    nothing is done; the merge fails and is the last command; the merge
    succeeds and the push follows, logged only when it succeeds too. *)
Lemma promote_final_spec root chosen_main :
  spec (promote_final git clock root chosen_main)
    (fun new r =>
       exists ans,
         inputs new = [(typed_prompt, ans)] /\
         ((typed_ok "PUSH STAGING TO MAIN" ans = false /\
           results new = [] /\ logged new = []) \/
          (typed_ok "PUSH STAGING TO MAIN" ans = true /\
           exists c, c <> 0%Z /\
             results new = [(["merge"; "staging"], c)] /\ logged new = []) \/
          (typed_ok "PUSH STAGING TO MAIN" ans = true /\
           exists c2,
             results new = [(["push"; "origin"; chosen_main], c2);
                            (["merge"; "staging"], 0%Z)] /\
             (c2 <> 0%Z -> logged new = []) /\
             (forall msg, In msg (logged new) ->
                          msg = promotion_msg chosen_main /\ c2 = 0%Z)))).
Proof.
  apply spec_wp. intros w. wp_steps no_block.
  all: simpl; eexists; split; [reflexivity |].
  all: cbn [typed_ok]; unfold matches.
  all: repeat match goal with H : String.eqb _ _ = _ |- _ => rewrite H end.
  all: codes.
  all: first
         [ left; repeat split; reflexivity
         | right; left; split; [reflexivity |]; eexists; split; [eassumption |];
           split; reflexivity
         | right; right; split; [reflexivity |]; eexists; split;
           [ repeat match goal with H : returncode _ = _ |- _ => rewrite H end;
             reflexivity
           | split;
             [ intros; solve [reflexivity | congruence]
             | simpl; intros msg Hin;
               repeat destruct Hin as [Hin | Hin]; try contradiction;
               subst; split; solve [reflexivity | congruence] ] ] ].
Qed.

End PromoteBlocks.

Lemma commands_results (l : list event) :
  commands l = List.map fst (results l).
Proof.
  induction l as [|[ | | args cp | ] l IH]; simpl; auto. now rewrite IH.
Qed.

Lemma typed_ok_iff (expected : string) (ans : option string) :
  typed_ok expected ans = true <-> exists a, ans = Some a /\ Py.strip a = expected.
Proof.
  destruct ans as [a|]; simpl.
  - rewrite matches_iff. split.
    + intros H. now exists a.
    + intros (a' & E & H). now injection E as ->.
  - split; [discriminate | intros (a & E & _); discriminate].
Qed.

Section AnyRun.

Variable git : list event -> list string -> CompletedProcess.
Variable clock : list event -> datetime.

(** The two delete paths only add events to the history. *)
Lemma local_delete_flow_any root current branch :
  spec (local_delete_flow git clock root current branch) (fun _ _ => True).
Proof.
  eapply spec_weaken with (Q := fun new _ => Forall (fun _ => True) new); [| auto].
  change (only (fun _ => True) (local_delete_flow git clock root current branch)).
  only_steps; exact I.
Qed.

Lemma remote_delete_flow_any root branch :
  spec (remote_delete_flow git clock root branch) (fun _ _ => True).
Proof.
  eapply spec_weaken with (Q := fun new _ => Forall (fun _ => True) new); [| auto].
  change (only (fun _ => True) (remote_delete_flow git clock root branch)).
  only_steps; exact I.
Qed.

End AnyRun.

(** A test on closed text that cannot have come out as the hypothesis says. *)
Ltac impossible :=
  match goal with
  | H : String.eqb _ _ = _ |- _ => solve [vm_compute in H; discriminate H]
  | H : bool_decide _ = _ |- _ => solve [vm_compute in H; discriminate H]
  end.

Lemma main_is_protected : bool_decide ("main" ∈ PROTECTED_BRANCHES) = true.
Proof. reflexivity. Qed.

(** The protected-branch gate, lines 256-262, for a protected branch: one
    typed confirmation, no command, and the function goes on exactly on a
    match. *)
Lemma protected_branch_gate_spec (b : string) :
  b ∈ PROTECTED_BRANCHES ->
  spec (protected_branch_gate b)
    (fun new r =>
       exists ans,
         inputs new = [(typed_prompt, ans)] /\
         (r = Returned true <-> typed_ok ("DELETE " ++ b) ans = true) /\
         harmless new /\ commands new = []).
Proof.
  intros Hb. pose proof (bool_decide_eq_true_2 _ Hb) as Hp.
  apply spec_wp. intros w. wp_steps no_block.
  all: simpl; eexists; split; [reflexivity |].
  all: cbn [typed_ok]; unfold matches.
  all: repeat match goal with H : String.eqb _ _ = _ |- _ => rewrite H end.
  all: split; [split; intros; congruence | split; [quiet | reflexivity]].
Qed.

(** The lines [typed_confirm] accepts: the expected text, which then has no
    whitespace at its ends, between whitespace. *)
Lemma matches_between (expected a : string) :
  matches expected a = true <->
  bare expected /\
  exists l r, whitespace l /\ whitespace r /\ a = l ++ expected ++ r.
Proof.
  rewrite matches_iff. split.
  - intros <-. split; [apply strip_is_bare | apply strip_trims].
  - intros (Hb & l & r & Hl & Hr & ->). now apply strip_bare.
Qed.

(** The phrase asked for a protected branch has no whitespace at its
    ends. *)
Lemma protected_phrase_bare (b : string) :
  b ∈ PROTECTED_BRANCHES -> bare ("DELETE " ++ b).
Proof.
  unfold PROTECTED_BRANCHES. rewrite !elem_of_union, !elem_of_singleton.
  intros H. apply bare_iff.
  repeat destruct H as [H | H]; subst b; reflexivity.
Qed.

(** C8.  An exact-text confirmation succeeds exactly when the line read,
    with the whitespace at its ends trimmed, equals the expected phrase,
    byte for byte: of [typed_confirm] itself, and of the four gates built
    on it (protected branch, force delete, remote delete, promotion), each
    of which reads one line and issues its command exactly on a match.
    Trimming is pinned down: the trimmed line is the one text without
    whitespace at its ends that stands in the line between two strings of
    whitespace characters, those of [whitespace_chars], the no-break space
    and the others outside ASCII among them.  So a line is accepted exactly
    when it is the expected phrase between whitespace, which asks that the
    phrase itself has no whitespace at its ends, as the phrase of a
    protected branch has.  For a protected-branch delete of main, the line
    DELETE main is accepted with whitespace around it, and the lines
    delete main and DELETE Main fail the gate: the function returns, the
    line is consumed, and no command is issued and nothing is logged. *)
Theorem C8_typed_confirm_exact :
  (forall prompt expected w,
      (typed_confirm prompt expected w).1 = Returned true <->
      exists a rest, stdin w = a :: rest /\ Py.strip a = expected) /\
  (forall expected ans,
      typed_ok expected ans = true <-> exists a, ans = Some a /\ Py.strip a = expected) /\
  (forall b, b ∈ PROTECTED_BRANCHES ->
      spec (protected_branch_gate b)
        (fun new r => exists ans,
           inputs new = [(typed_prompt, ans)] /\
           (r = Returned true <-> typed_ok ("DELETE " ++ b) ans = true))) /\
  (forall git clock root branch,
      spec (force_delete_gate git clock root branch)
        (fun new _ => exists ans,
           inputs new = [(typed_prompt, ans)] /\
           (In ["branch"; "-D"; branch] (commands new) <-> typed_ok branch ans = true))) /\
  (forall git clock root branch,
      spec (remote_delete_gate git clock root branch)
        (fun new _ => exists ans,
           inputs new = [(typed_prompt, ans)] /\
           (In ["push"; "origin"; "--delete"; branch] (commands new)
            <-> typed_ok branch ans = true))) /\
  (forall git clock root chosen_main,
      spec (promote_final git clock root chosen_main)
        (fun new _ => exists ans,
           inputs new = [(typed_prompt, ans)] /\
           (In ["merge"; "staging"] (commands new)
            <-> typed_ok "PUSH STAGING TO MAIN" ans = true))) /\
  (forall git clock root current choice a rest h,
      a = "delete main" \/ a = "DELETE Main" ->
      let w := mk_world (a :: rest) h in
      let run := delete_selected git clock root current choice "main" w in
      run.1 = Returned tt /\ stdin run.2 = rest /\
      commands (since w run.2) = [] /\ logged (since w run.2) = []) /\
  (forall a, exists l r,
      whitespace l /\ whitespace r /\ a = l ++ Py.strip a ++ r /\ bare (Py.strip a)) /\
  (forall l t r, whitespace l -> whitespace r -> bare t -> Py.strip (l ++ t ++ r) = t) /\
  (forall s, whitespace s <->
             exists cs, Forall (fun c => In c whitespace_chars) cs /\
                        s = List.fold_right String.append EmptyString cs) /\
  (forall prompt expected w,
      (typed_confirm prompt expected w).1 = Returned true <->
      exists a rest l r,
        stdin w = a :: rest /\ bare expected /\
        whitespace l /\ whitespace r /\ a = l ++ expected ++ r) /\
  (forall expected ans,
      typed_ok expected ans = true <->
      exists a l r,
        ans = Some a /\ bare expected /\
        whitespace l /\ whitespace r /\ a = l ++ expected ++ r) /\
  (forall b, b ∈ PROTECTED_BRANCHES -> bare ("DELETE " ++ b)) /\
  (forall a rest h,
      In a ["DELETE main"; " DELETE main "; utf8 [9] ++ "DELETE main" ++ utf8 [13];
            "DELETE main" ++ utf8 [194; 160];
            utf8 [226; 128; 137] ++ "DELETE main" ++ utf8 [227; 128; 128]] ->
      (protected_branch_gate "main" (mk_world (a :: rest) h)).1 = Returned true) /\
  (forall a rest h,
      In a [EmptyString; "delete main"; "DELETE Main"; "DELETE  main"; "DELETEmain";
            "DELETE main."; "main"; "y"; "DELETE" ++ utf8 [194; 160] ++ "main"] ->
      (protected_branch_gate "main" (mk_world (a :: rest) h)).1 = Returned false).
Proof.
  repeat match goal with |- _ /\ _ => split end.
  - intros prompt expected [[|a rest] h].
    + rewrite typed_confirm_eof. simpl. split; [discriminate |].
      intros (a & rest & E & _). discriminate.
    + rewrite typed_confirm_run. cbn [fst stdin]. split.
      * intros H. injection H as H. apply matches_iff in H. now exists a, rest.
      * intros (a' & rest' & E & H). injection E as <- <-.
        apply matches_iff in H. now rewrite H.
  - apply typed_ok_iff.
  - intros b Hb. eapply spec_weaken; [apply (protected_branch_gate_spec b Hb) |].
    intros new r (ans & Hi & Hr & _). now exists ans.
  - intros git clock root branch.
    eapply spec_weaken; [apply force_delete_gate_spec |].
    intros new r (ans & Hi & Hc & _). exists ans. split; [exact Hi |].
    rewrite Hc. destruct (typed_ok branch ans); simpl; intuition congruence.
  - intros git clock root branch.
    eapply spec_weaken; [apply remote_delete_gate_spec |].
    intros new r (ans & Hi & Hc & _). exists ans. split; [exact Hi |].
    rewrite Hc. destruct (typed_ok branch ans); simpl; intuition congruence.
  - intros git clock root chosen_main.
    eapply spec_weaken; [apply promote_final_spec |].
    intros new r (ans & Hi & Hc). exists ans. split; [exact Hi |].
    rewrite commands_results.
    destruct Hc as [(Hk & Hr & _) | [(Hk & c & _ & Hr & _) | (Hk & c2 & Hr & _)]];
      rewrite Hr, Hk; simpl; intuition congruence.
  - intros git clock root current choice a rest h Ha w run. subst w run.
    pose proof main_is_protected as Hmain.
    assert (Hlower : matches ("DELETE " ++ "main") "delete main" = false) by reflexivity.
    assert (Hupper : matches ("DELETE " ++ "main") "DELETE Main" = false) by reflexivity.
    unfold matches in Hlower, Hupper.
    as_wp. destruct Ha as [-> | ->].
    all: wp_steps ltac:(first [ by_spec (local_delete_flow_any git clock)
                              | by_spec (remote_delete_flow_any git clock) ]).
    all: try impossible.
    all: simpl; auto.
  - apply strip_spec.
  - intros l t r Hl Hr Ht. now apply strip_bare.
  - apply whitespace_chars_only.
  - intros prompt expected [[|a rest] h].
    + rewrite typed_confirm_eof. simpl. split; [discriminate |].
      intros (a & rest & l & r & E & _). discriminate.
    + rewrite typed_confirm_run. cbn [fst stdin]. split.
      * intros H. injection H as H. apply matches_between in H.
        destruct H as (Hb & l & r & Hl & Hr & E). now exists a, rest, l, r.
      * intros (a' & rest' & l & r & E & Hb & Hl & Hr & Ea). injection E as <- <-.
        assert (H : matches expected a = true).
        { apply matches_between. split; [exact Hb |]. now exists l, r. }
        now rewrite H.
  - intros expected [a|]; simpl.
    + rewrite matches_between. split.
      * intros (Hb & l & r & Hl & Hr & E). now exists a, l, r.
      * intros (a' & l & r & E & Hb & Hl & Hr & Ea). injection E as <-.
        split; [exact Hb |]. now exists l, r.
    + split; [discriminate | intros (a & l & r & E & _); discriminate].
  - apply protected_phrase_bare.
  - intros a rest h Hin.
    repeat destruct Hin as [<- | Hin]; try contradiction; reflexivity.
  - intros a rest h Hin.
    repeat destruct Hin as [<- | Hin]; try contradiction; reflexivity.
Qed.

(* ===================================================================== *)
(** * The local delete path *)
(* ===================================================================== *)

Section LocalDelete.

Variable git : list event -> list string -> CompletedProcess.
Variable clock : list event -> datetime.

(** From "Determine merge safety" on (lines 280-290): when a primary
    branch is found and the branch is an ancestor of it, the block asks one
    yes/no question and nothing else, does not print the header of the
    unique commits, and its only commands are the two queries and, on a
    yes, [branch -d]; on any other answer nothing changes. *)
Lemma delete_local_checked_merged root branch w p w1 w2 :
  choose_primary_branch git w = (Returned (Some p), w1) ->
  Py.nonempty p = true ->
  is_merged_into git branch p w1 = (Returned true, w2) ->
  let run := delete_local_checked git clock root branch w in
  let new := since w run.2 in
  exists ans,
    inputs new = [(yes_no ("Delete local branch '" ++ branch ++ "'?"), ans)] /\
    commands (rev new) =
      (["branch"; "--format=%(refname:short)"]
       :: ["merge-base"; "--is-ancestor"; branch; p]
       :: (if said_yes ans then [["branch"; "-d"; branch]] else []))%list /\
    typed new = [] /\
    ~ In unique_commits_header (printed new) /\
    (said_yes ans = false -> harmless new).
Proof.
  intros H1 Hp H2 run new. subst run new.
  destruct (choose_primary_branch_spec git w) as (n1 & E1 & cp1 & S1).
  destruct (is_merged_into_spec git branch p w1) as (n2 & E2 & cp2 & S2 & _).
  rewrite H1 in E1. rewrite H2 in E2. simpl in E1, E2. subst n1 n2.
  as_wp. wp_steps by_run.
  all: simpl; eexists; split; [reflexivity |].
  all: cbn [said_yes]; unfold affirmative.
  all: repeat match goal with H : String.eqb _ _ = _ |- _ => rewrite H end.
  all: split; [reflexivity | split; [reflexivity | split]].
  all: try (intros Hin; simpl in Hin; unfold unique_commits_header in Hin;
            repeat destruct Hin as [Hin | Hin]; try discriminate; contradiction).
  all: intros; try discriminate; quiet.
Qed.

End LocalDelete.








Section Unmerged.

Variable git : list event -> list string -> CompletedProcess.
Variable clock : list event -> datetime.


End Unmerged.

Section ForcedDelete.

Variable git : list event -> list string -> CompletedProcess.
Variable clock : list event -> datetime.


End ForcedDelete.

(* ===================================================================== *)
(** * The backup tagger *)
(* ===================================================================== *)

(** The list without its last element. *)
Ltac all_but_last l :=
  lazymatch l with
  | [_] => constr:(@nil event)
  | ?e :: ?l' => let r := all_but_last l' in constr:(e :: r)
  | (?n ++ ?l')%list => let r := all_but_last l' in constr:((n ++ r)%list)
  end.

Section BackupTag.

Variable git : list event -> list string -> CompletedProcess.
Variable clock : list event -> datetime.

(** The first thing [create_backup_tag] does is [git tag] with the name
    composed from the branch and the clock, and that name is what it
    returns when it returns a tag. *)
Lemma create_backup_tag_name branch root w :
  let tag := ("backup/" ++ branch ++ "/" ++ strftime_compact (clock (events w)))%string in
  let run := create_backup_tag git clock branch root w in
  (exists later cp, since w run.2 = (later ++ [EvGit ["tag"; tag; branch] cp])%list) /\
  (forall t, run.1 = Returned (Some t) -> t = tag).
Proof.
  intros tag run. subst tag run. as_wp.
  wp_steps no_block.
  all: rewrite <- ?app_assoc; simpl; split.
  all: try (intros t Ht; try discriminate; injection Ht as <-; reflexivity).
  all: match goal with
       | |- exists later cp, ?l = _ =>
           let r := all_but_last l in
           exists r;
           match l with context [EvGit ["tag"; _; _] ?c] => exists c end;
           reflexivity
       end.
Qed.

End BackupTag.

(** C7.  The name [create_backup_tag] gives to [git tag], and returns, is
    backup/, the branch name, a slash, and the UTC clock reading in the
    compact form of four digits of year, two of month, two of day, the
    letter T, two digits of hour, of minute, of second, and the letter Z,
    which show the reading to the second; two tags made within the same
    second for different branches have different names. *)
Theorem C7_backup_tag_name :
  forall git clock branch root w,
    let now := clock (events w) in
    let tag := ("backup/" ++ branch ++ "/" ++ strftime_compact now)%string in
    let run := create_backup_tag git clock branch root w in
    (exists later cp, since w run.2 = (later ++ [EvGit ["tag"; tag; branch] cp])%list) /\
    (forall t, run.1 = Returned (Some t) -> t = tag) /\
    compact_utc (strftime_compact now) = true /\
    (valid_datetime now ->
     compact_fields (strftime_compact now) =
     [year now; month now; day now; hour now; minute now; second now]) /\
    (forall git' clock' branch' root' w' t t',
        same_second now (clock' (events w')) ->
        branch <> branch' ->
        run.1 = Returned (Some t) ->
        (create_backup_tag git' clock' branch' root' w').1 = Returned (Some t') ->
        t <> t').
Proof.
  intros git clock branch root w now tag run.
  destruct (create_backup_tag_name git clock branch root w) as (Hcmd & Hret).
  split; [exact Hcmd |]. split; [exact Hret |].
  split; [apply compact_utc_strftime |].
  split; [apply compact_fields_strftime |].
  intros git' clock' branch' root' w' t t' Hsame Hne Ht Ht' E.
  destruct (create_backup_tag_name git' clock' branch' root' w') as (_ & Hret').
  apply Hret in Ht. apply Hret' in Ht'. subst t t'.
  fold now in E. rewrite <- (strftime_compact_same_second _ _ Hsame) in E.
  injection E as E. apply Hne.
  apply (append_inv_tail _ _ ("/" ++ strftime_compact now)). exact E.
Qed.

(* ===================================================================== *)
(** * Protected branches *)
(* ===================================================================== *)

(** The label of the protected-branch confirmation, line 260. *)
Definition protected_label : string := "Protected-branch deletion confirmation".

(** The deletes of an event, if any, are of [branch]. *)
Definition deletes_only (branch : string) (e : event) : Prop :=
  forall b, delete_target e = Some b -> b = branch.

(** A delete of a protected branch in [new] comes after the exact phrase
    was typed at the protected-branch confirmation. *)
Definition phrase_before_delete (new : list event) : Prop :=
  forall e b,
    In e new -> delete_target e = Some b -> b ∈ PROTECTED_BRANCHES ->
    exists a after before,
      new = (after ++ EvInput typed_prompt (Some a) :: EvPrint protected_label :: before)%list /\
      In e after /\ Py.strip a = ("DELETE " ++ b)%string.

Lemma phrase_explicit (l : list event) :
  Forall (fun e => delete_target e = None) l -> phrase_before_delete l.
Proof.
  intros H e b Hin Ht _. rewrite List.Forall_forall in H. rewrite (H e Hin) in Ht.
  discriminate.
Qed.

Lemma phrase_unprotected (branch : string) (l : list event) :
  bool_decide (branch ∈ PROTECTED_BRANCHES) = false ->
  Forall (deletes_only branch) l -> phrase_before_delete l.
Proof.
  intros Hb H e b Hin Ht Hp. rewrite List.Forall_forall in H.
  rewrite (H e Hin b Ht) in Hp. apply bool_decide_eq_false in Hb. contradiction.
Qed.

Lemma phrase_after_gate (branch a : string) (after before : list event) :
  Py.strip a = ("DELETE " ++ branch)%string ->
  Forall (deletes_only branch) after ->
  Forall (fun e => delete_target e = None) before ->
  phrase_before_delete
    (after ++ EvInput typed_prompt (Some a) :: EvPrint protected_label :: before).
Proof.
  intros Ha Hafter Hbefore e b Hin Ht _.
  rewrite List.Forall_forall in Hafter, Hbefore.
  apply in_app_or in Hin. destruct Hin as [Hin | [<- | [<- | Hin]]];
    try discriminate.
  - exists a, after, before. split; [reflexivity |]. split; [exact Hin |].
    now rewrite (Hafter e Hin b Ht).
  - rewrite (Hbefore e Hin) in Ht. discriminate.
Qed.

(** The history grows at its older end by events that delete nothing. *)
Lemma phrase_older (new older : list event) :
  phrase_before_delete new ->
  Forall (fun e => delete_target e = None) older ->
  phrase_before_delete (new ++ older).
Proof.
  intros H Holder e b Hin Ht Hp. rewrite List.Forall_forall in Holder.
  apply in_app_or in Hin. destruct Hin as [Hin | Hin].
  - destruct (H e b Hin Ht Hp) as (a & after & before & -> & Hafter & Ha).
    exists a, after, (before ++ older)%list. split; [| split; assumption].
    rewrite <- app_assoc. reflexivity.
  - rewrite (Holder e Hin) in Ht. discriminate.
Qed.

Section Protected.

Variable git : list event -> list string -> CompletedProcess.
Variable clock : list event -> datetime.

Lemma local_delete_flow_targets root current branch :
  spec (local_delete_flow git clock root current branch)
    (fun new _ => Forall (deletes_only branch) new).
Proof.
  change (only (deletes_only branch) (local_delete_flow git clock root current branch)).
  only_steps; unfold deletes_only; cbn; intros; congruence.
Qed.

Lemma remote_delete_flow_targets root branch :
  spec (remote_delete_flow git clock root branch)
    (fun new _ => Forall (deletes_only branch) new).
Proof.
  change (only (deletes_only branch) (remote_delete_flow git clock root branch)).
  only_steps; unfold deletes_only; cbn; intros; congruence.
Qed.

Lemma delete_selected_spec root current choice branch :
  spec (delete_selected git clock root current choice branch)
    (fun new _ => phrase_before_delete new).
Proof.
  apply spec_wp. intros w.
  wp_steps ltac:(first [ by_spec (local_delete_flow_targets)
                       | by_spec (remote_delete_flow_targets) ]).
  all: tests; simpl.
  all: try match goal with H : false = true |- _ => discriminate H end.
  all: first
         [ apply phrase_explicit; solve [repeat constructor]
         | rewrite ?app_assoc; eapply phrase_after_gate;
           [ eassumption
           | repeat (apply Forall_app; split); solve [assumption | constructor]
           | repeat constructor ]
         | eapply phrase_unprotected;
           [ eassumption
           | repeat (apply Forall_app; split); solve [assumption | constructor] ] ].
Qed.

(** C1.  In a run of [delete_branch], every delete command ([branch -d],
    [branch -D], [push origin --delete]) of a protected branch comes after
    the operator typed, at the protected-branch confirmation, a line that
    stripped is exactly DELETE and the branch name; and when the line typed
    there is anything else, the function returns at once: both the local
    and the remote path are skipped, no command is issued and nothing is
    logged. *)
Theorem C1_protected_delete_needs_phrase (b : string) :
  b ∈ PROTECTED_BRANCHES ->
  (forall w,
      let new := since w (delete_branch git clock w).2 in
      forall e, In e new -> delete_target e = Some b ->
        exists a after before,
          new = (after ++ EvInput typed_prompt (Some a)
                         :: EvPrint protected_label :: before)%list /\
          In e after /\ Py.strip a = ("DELETE " ++ b)%string) /\
  (forall root current choice a rest h,
      Py.strip a <> ("DELETE " ++ b)%string ->
      let w := mk_world (a :: rest) h in
      let run := delete_selected git clock root current choice b w in
      run.1 = Returned tt /\ stdin run.2 = rest /\
      commands (since w run.2) = [] /\ logged (since w run.2) = []).
Proof.
  intros Hb. split.
  - intros w new e Hin Ht.
    assert (H : phrase_before_delete new); [| exact (H e b Hin Ht Hb)].
    clear e Hin Ht. subst new. as_wp.
    wp_steps ltac:(by_spec delete_selected_spec).
    all: rewrite <- ?app_assoc; simpl.
    all: first [ apply phrase_explicit; solve [repeat constructor]
               | apply phrase_older; [assumption | repeat constructor] ].
  - intros root current choice a rest h Ha w run. subst w run.
    pose proof (bool_decide_eq_true_2 _ Hb) as Hp.
    apply String.eqb_neq in Ha.
    as_wp.
    wp_steps ltac:(first [ by_spec (local_delete_flow_any git clock)
                         | by_spec (remote_delete_flow_any git clock) ]).
    all: try match goal with H : false = true |- _ => discriminate H end.
    all: simpl; auto.
Qed.

End Protected.

(* ===================================================================== *)
(** * The promotion *)
(* ===================================================================== *)

(** An event of the promotion itself: the merge of staging, the push of
    [main] or [master], or the promotion entry of the audit log. *)
Definition promotion_step (e : event) : Prop :=
  match e with
  | EvGit args _ =>
      args = ["merge"; "staging"] \/ args = ["push"; "origin"; "main"] \/
      args = ["push"; "origin"; "master"]
  | EvLog _ _ msg => exists m, msg = promotion_msg m
  | _ => False
  end.

(** What lines 402-424 leave behind, as [promote_final] is specified. *)
Definition promote_outcome (chosen_main : string) (new : list event) : Prop :=
  exists ans,
    inputs new = [(typed_prompt, ans)] /\
    ((typed_ok "PUSH STAGING TO MAIN" ans = false /\
      results new = [] /\ logged new = []) \/
     (typed_ok "PUSH STAGING TO MAIN" ans = true /\
      exists c, c <> 0%Z /\
        results new = [(["merge"; "staging"], c)] /\ logged new = []) \/
     (typed_ok "PUSH STAGING TO MAIN" ans = true /\
      exists c2,
        results new = [(["push"; "origin"; chosen_main], c2);
                       (["merge"; "staging"], 0%Z)] /\
        (c2 <> 0%Z -> logged new = []) /\
        (forall msg, In msg (logged new) ->
                     msg = promotion_msg chosen_main /\ c2 = 0%Z))).

(** A history in which a failed merge is the last command and leaves no
    push of [main] or [master] and no promotion entry, and a promotion
    entry has the successful push and the successful merge just before. *)
Definition promoted (new : list event) : Prop :=
  (forall c, In (["merge"; "staging"], c) (results new) -> c <> 0%Z ->
     (exists older, results new = (["merge"; "staging"], c) :: older) /\
     ~ In ["push"; "origin"; "main"] (commands new) /\
     ~ In ["push"; "origin"; "master"] (commands new) /\
     (forall m, ~ In (promotion_msg m) (logged new))) /\
  (forall m, In (promotion_msg m) (logged new) ->
     exists older,
       results new = (["push"; "origin"; m], 0%Z) :: (["merge"; "staging"], 0%Z) :: older).

Lemma results_app (l1 l2 : list event) :
  results (l1 ++ l2) = (results l1 ++ results l2)%list.
Proof. apply flat_map_app. Qed.

Lemma append_inv_head (t s1 s2 : string) : t ++ s1 = t ++ s2 -> s1 = s2.
Proof. induction t as [|c t IH]; simpl; intros H; [exact H | injection H as H; auto]. Qed.

Lemma promotion_msg_inj (m1 m2 : string) : promotion_msg m1 = promotion_msg m2 -> m1 = m2.
Proof.
  unfold promotion_msg. intros H.
  apply append_inv_head in H. exact (append_inv_tail _ _ _ H).
Qed.

Lemma before_promotion (l : list event) :
  Forall (fun e => ~ promotion_step e) l ->
  (forall c, ~ In (["merge"; "staging"], c) (results l)) /\
  ~ In ["push"; "origin"; "main"] (commands l) /\
  ~ In ["push"; "origin"; "master"] (commands l) /\
  (forall m, ~ In (promotion_msg m) (logged l)).
Proof.
  induction 1 as [|e l He _ IH]; [simpl; tauto |].
  destruct IH as (I1 & I2 & I3 & I4).
  destruct e as [t | p a | args cp | path ts msg]; simpl in *; try tauto.
  - split; [| split; [| split]]; [| | | exact I4].
    + intros c [E | E]; [injection E as E _; tauto | now apply (I1 c)].
    + intros [E | E]; tauto.
    + intros [E | E]; tauto.
  - split; [| split; [| split]]; try assumption.
    intros m [E | E]; [| now apply (I4 m)].
    apply He. now exists m.
Qed.

Lemma promoted_prelude (l : list event) :
  Forall (fun e => ~ promotion_step e) l -> promoted l.
Proof.
  intros H. destruct (before_promotion l H) as (I1 & _ & _ & I4). split.
  - intros c Hin. now destruct (I1 c).
  - intros m Hin. now destruct (I4 m).
Qed.

Lemma promoted_final (chosen_main : string) (final pre : list event) :
  promote_outcome chosen_main final ->
  Forall (fun e => ~ promotion_step e) pre ->
  promoted (final ++ pre).
Proof.
  intros (ans & _ & Hc) Hpre.
  destruct (before_promotion pre Hpre) as (I1 & I2 & I3 & I4).
  unfold promoted. rewrite results_app, commands_app, logged_app.
  destruct Hc as [(_ & Hr & Hl) | [(_ & c1 & Hc1 & Hr & Hl) | (_ & c2 & Hr & Hn & Hl)]].
  - rewrite commands_results, Hr, Hl. simpl. split.
    + intros c Hin. now destruct (I1 c).
    + intros m Hin. now destruct (I4 m).
  - rewrite commands_results, Hr, Hl. simpl. split.
    + intros c [E | Hin] Hc; [| now destruct (I1 c)].
      injection E as <-. split; [now eexists |].
      repeat split; try (intros [E | E]; [discriminate | tauto]). exact I4.
    + intros m Hin. now destruct (I4 m).
  - rewrite Hr. simpl. split.
    + intros c [E | [E | Hin]] Hc; [discriminate | congruence | now destruct (I1 c)].
    + intros m Hin. apply in_app_or in Hin. destruct Hin as [Hin | Hin]; [| now destruct (I4 m)].
      destruct (Hl _ Hin) as [E ->]. apply promotion_msg_inj in E. subst. now eexists.
Qed.

(** Closes the goal that an explicit event is no step of the promotion. *)
Ltac not_promotion :=
  cbv beta; cbn [promotion_step]; unfold promotion_msg;
  try tauto;
  first [ intros [? | [? | ?]] | intros [? ?] ];
  match goal with E : _ = _ |- _ => cbv [String.append backup_tag_name] in E; congruence end.

(** Splits a history into its blocks and its explicit events. *)
Ltac each_event :=
  repeat first
    [ assumption
    | apply List.Forall_nil
    | apply List.Forall_cons
    | apply Forall_app; split ].

(** A block with the given head is run by the [spec] lemma given. *)
Ltac block f lem :=
  idtac;
  lazymatch goal with
  | |- wp ?m _ _ =>
      let h := head_of m in
      constr_eq h f; eapply wp_spec; [apply lem | cbv beta; intros ?new ?r ?w ?]
  | _ => fail
  end.

(** The same for a lemma with a premise on each event, closed by [tac]. *)
Ltac block_if f lem tac :=
  idtac;
  lazymatch goal with
  | |- wp ?m _ _ =>
      let h := head_of m in
      constr_eq h f;
      eapply wp_spec; [apply lem; intros ?; tac | cbv beta; intros ?new ?r ?w ?]
  | _ => fail
  end.

Section Promotion.

Variable git : list event -> list string -> CompletedProcess.
Variable clock : list event -> datetime.

Lemma check_git_repo_before :
  only (fun e => ~ promotion_step e) (check_git_repo git).
Proof. only_steps; not_promotion. Qed.

Lemma get_repo_root_before :
  only (fun e => ~ promotion_step e) (get_repo_root git).
Proof. only_steps; not_promotion. Qed.

Lemma resolve_branches_before :
  only (fun e => ~ promotion_step e) (resolve_branches git).
Proof. only_steps; not_promotion. Qed.

Lemma is_working_tree_clean_before :
  only (fun e => ~ promotion_step e) (is_working_tree_clean git).
Proof. only_steps; not_promotion. Qed.

Lemma has_main_before :
  only (fun e => ~ promotion_step e)
       (orM (branch_exists_local git "main") (branch_exists_remote git "main" "origin")).
Proof. only_steps; not_promotion. Qed.

Lemma create_backup_tag_before branch root :
  only (fun e => ~ promotion_step e) (create_backup_tag git clock branch root).
Proof. only_steps; not_promotion. Qed.

Lemma confirm_before question :
  only (fun e => ~ promotion_step e) (confirm question).
Proof. only_steps; not_promotion. Qed.

Lemma print_run_git_before args :
  (forall cp, ~ promotion_step (EvGit args cp)) ->
  only (fun e => ~ promotion_step e) (print_run_git git args).
Proof. intros H. only_steps; first [apply H | not_promotion]. Qed.

Lemma promote_final_outcome root chosen_main :
  spec (promote_final git clock root chosen_main)
       (fun new _ => promote_outcome chosen_main new).
Proof. apply promote_final_spec. Qed.

Lemma push_staging_to_main_promoted :
  spec (push_staging_to_main git clock) (fun new _ => promoted new).
Proof.
  apply spec_wp. intros w.
  wp_steps ltac:(first [ block promote_final promote_final_outcome
                       | block check_git_repo check_git_repo_before
                       | block get_repo_root get_repo_root_before
                       | block resolve_branches resolve_branches_before
                       | block is_working_tree_clean is_working_tree_clean_before
                       | block @orM has_main_before
                       | block create_backup_tag create_backup_tag_before
                       | block confirm confirm_before
                       | block_if print_run_git print_run_git_before not_promotion ]).
  all: rewrite <- ?app_assoc; cbn [app].
  all: first
         [ eapply promoted_final; [eassumption |]
         | apply promoted_prelude ].
  all: each_event.
  all: not_promotion.
Qed.

End Promotion.

(** C5.  In a run of [push_staging_to_main], a merge of staging that
    returns a non-zero code is the last command issued: no push of [main]
    or [master] is in the run and the audit log gets no promotion entry;
    and a promotion entry is in the audit log only when the last two
    commands are the merge and then the push of the chosen main, both
    returning zero. *)
Theorem C5_failed_merge_no_push
    (git : list event -> list string -> CompletedProcess)
    (clock : list event -> datetime) (w : world) :
  let new := since w (push_staging_to_main git clock w).2 in
  (forall c, In (["merge"; "staging"], c) (results new) -> c <> 0%Z ->
     (exists older, results new = (["merge"; "staging"], c) :: older) /\
     ~ In ["push"; "origin"; "main"] (commands new) /\
     ~ In ["push"; "origin"; "master"] (commands new) /\
     (forall m, ~ In (promotion_msg m) (logged new))) /\
  (forall m, In (promotion_msg m) (logged new) ->
     exists older,
       results new = (["push"; "origin"; m], 0%Z) :: (["merge"; "staging"], 0%Z) :: older).
Proof.
  intros new. subst new.
  destruct (push_staging_to_main_promoted git clock w) as (new & E & H).
  unfold since. rewrite E.
  replace (List.firstn _ _) with new; [exact H |].
  rewrite length_app, Nat.add_sub, firstn_app, Nat.sub_diag, firstn_all. simpl.
  now rewrite app_nil_r.
Qed.

(* ===================================================================== *)
(** * After a decline *)
(* ===================================================================== *)









Section Declines.

Variable git : list event -> list string -> CompletedProcess.
Variable clock : list event -> datetime.











End Declines.

(** The event is no line read at [prompt]. *)
Definition not_prompt (prompt : string) (e : event) : Prop :=
  match e with EvInput q _ => q <> prompt | _ => True end.

(** A run in which a no at the yes/no [prompt] ends the step: nothing is
    issued or logged after it, and every event before it satisfies [P]. *)
Definition declined_at (prompt : string) (P : event -> Prop) (new : list event) : Prop :=
  forall ans, In (prompt, ans) (inputs new) -> said_yes ans = false ->
    exists after before,
      new = (after ++ EvInput prompt ans :: before)%list /\
      commands after = [] /\ logged after = [] /\ Forall P before.

Lemma not_prompted (prompt : string) (l : list event) :
  Forall (not_prompt prompt) l -> forall ans, ~ In (prompt, ans) (inputs l).
Proof.
  induction 1 as [|e l He _ IH]; intros ans; simpl; [tauto |].
  destruct e as [t | q b | args cp | path ts msg]; simpl in *; auto.
  intros [E | Hin]; [injection E as -> _; now apply He | now apply (IH ans)].
Qed.

Lemma declined_absent (prompt : string) (P : event -> Prop) (l : list event) :
  Forall (not_prompt prompt) l -> declined_at prompt P l.
Proof. intros H ans Hin. now destruct (not_prompted _ _ H ans). Qed.

Lemma declined_here (prompt : string) (P : event -> Prop)
    (after before : list event) (ans0 : option string) :
  Forall (not_prompt prompt) after ->
  Forall (fun e => P e /\ not_prompt prompt e) before ->
  (said_yes ans0 = false -> commands after = [] /\ logged after = []) ->
  declined_at prompt P (after ++ EvInput prompt ans0 :: before).
Proof.
  intros Ha Hb Hq ans Hin Hno.
  assert (Hb' : Forall (not_prompt prompt) before).
  { eapply List.Forall_impl; [| exact Hb]. now intros e [_ H]. }
  rewrite inputs_app, in_app_iff in Hin. simpl in Hin.
  destruct Hin as [Hin | [E | Hin]].
  - now destruct (not_prompted _ _ Ha ans).
  - injection E as <-. destruct (Hq Hno) as [Hc Hl].
    exists after, before. repeat split; try assumption.
    eapply List.Forall_impl; [| exact Hb]. now intros e [H _].
  - now destruct (not_prompted _ _ Hb' ans).
Qed.



(** The prompt of the dirty working tree, line 384. *)
Definition dirty_prompt : string := yes_no "Proceed despite uncommitted changes?".

(** The prompt of the switch away from the branch to delete, line 274. *)
Definition switch_prompt : string :=
  yes_no "Switch to the suggested safe branch and continue?".

(** The events of [l] that come before the line read at [p]. *)
Ltac before_input p l :=
  match l with
  | (EvInput ?q _) :: _ =>
      let _ := constr:(eq_refl : q = p) in constr:(@nil event)
  | ?e :: ?l' => let r := before_input p l' in constr:(e :: r)
  | (?n ++ ?l')%list => let r := before_input p l' in constr:((n ++ r)%list)
  end.

(** Splits the history of the goal at the line read at the prompt. *)
Ltac split_at_prompt :=
  lazymatch goal with
  | |- declined_at ?p ?P ?l =>
      let a := before_input p l in
      let H := fresh in
      eassert (H : l = (a ++ EvInput p _ :: _)%list)
        by (rewrite <- ?app_assoc; reflexivity);
      rewrite H; clear H; apply declined_here
  end.

(** Closes the goal that an explicit event is no line read at the prompt. *)
Ltac not_prompt_goal :=
  cbv beta; cbn [not_prompt];
  first [ exact I
        | unfold dirty_prompt, switch_prompt, yes_no; intros ?;
          match goal with E : _ = _ |- _ => cbv [String.append] in E; congruence end ].

(** Closes the goal that nothing follows a no, or that the answer was a
    yes. *)
Ltac nothing_after :=
  intros ?; first [ split; reflexivity
                  | exfalso;
                    match goal with
                    | H : said_yes _ = false |- _ =>
                        cbn [said_yes] in H; unfold affirmative in H; congruence
                    end ].

Section DirtyTree.

Variable git : list event -> list string -> CompletedProcess.
Variable clock : list event -> datetime.




End DirtyTree.

Lemma spec_since {A} (m : M A) (Q : list event -> Prop) :
  spec m (fun new _ => Q new) -> forall w, Q (since w (m w).2).
Proof. intros H w. destruct (H w) as (new & E & HQ). now rewrite (since_app _ _ _ E). Qed.




(* ===================================================================== *)
(** * The dirty working tree *)
(* ===================================================================== *)



(** Passes from the events of a block to what the goal asks of them. *)
Ltac of_block :=
  eapply List.Forall_impl; [| eassumption]; cbv beta; tauto.

Section DirtyPromote.

Variable git : list event -> list string -> CompletedProcess.
Variable clock : list event -> datetime.






End DirtyPromote.




(* ===================================================================== *)
(** * The switch away from the branch to delete *)
(* ===================================================================== *)

(** An event that changes nothing and is not the query [git remote] the
    remote path starts with (line 319). *)
Definition before_remote (e : event) : Prop :=
  effectful e = false /\ forall cp, e <> EvGit ["remote"] cp.

(** Closes the goal that an explicit event changes nothing, is not the
    query of the remotes, and is no line read at the prompt. *)
Ltac local_goal :=
  cbv beta; split;
  [ split; [reflexivity | intros ?; discriminate] | not_prompt_goal ].

Section Switch.

Variable git : list event -> list string -> CompletedProcess.
Variable clock : list event -> datetime.

Lemma check_git_repo_local :
  only (fun e => before_remote e /\ not_prompt switch_prompt e) (check_git_repo git).
Proof. only_steps; local_goal. Qed.

Lemma get_repo_root_local :
  only (fun e => before_remote e /\ not_prompt switch_prompt e) (get_repo_root git).
Proof. only_steps; local_goal. Qed.

Lemma get_current_branch_local :
  only (fun e => before_remote e /\ not_prompt switch_prompt e) (get_current_branch git).
Proof. only_steps; local_goal. Qed.

Lemma branch_exists_local_local branch :
  only (fun e => before_remote e /\ not_prompt switch_prompt e)
       (branch_exists_local git branch).
Proof. only_steps; local_goal. Qed.

Lemma choose_primary_branch_local :
  only (fun e => before_remote e /\ not_prompt switch_prompt e) (choose_primary_branch git).
Proof. only_steps; local_goal. Qed.

Lemma print_run_git_unprompted args :
  only (not_prompt switch_prompt) (print_run_git git args).
Proof. only_steps; not_prompt_goal. Qed.

Lemma delete_local_checked_unprompted root branch :
  only (not_prompt switch_prompt) (delete_local_checked git clock root branch).
Proof. only_steps; not_prompt_goal. Qed.

Lemma remote_delete_flow_unprompted root branch :
  only (not_prompt switch_prompt) (remote_delete_flow git clock root branch).
Proof. only_steps; not_prompt_goal. Qed.

(** Lines 236-341: a no at the prompt of the switch ends the function. *)
Lemma delete_branch_declined :
  spec (delete_branch git clock)
       (fun new _ => declined_at switch_prompt before_remote new).
Proof.
  apply spec_wp. intros w.
  wp_steps ltac:(first [ block check_git_repo check_git_repo_local
                       | block get_repo_root get_repo_root_local
                       | block get_current_branch get_current_branch_local
                       | block branch_exists_local branch_exists_local_local
                       | block choose_primary_branch choose_primary_branch_local
                       | block print_run_git print_run_git_unprompted
                       | block delete_local_checked delete_local_checked_unprompted
                       | block remote_delete_flow remote_delete_flow_unprompted ]).
  all: rewrite <- ?app_assoc; cbn [app].
  all: first [ split_at_prompt | apply declined_absent ].
  all: try nothing_after.
  all: each_event.
  all: try of_block.
  all: first [ not_prompt_goal | local_goal ].
Qed.

End Switch.

(** C6, as the specification words it, fails: with scope 3 (both) and the
    branch checked out, a no at the prompt of the switch makes line 278
    return from the whole function.  The remote path is not run: [git
    remote], its first step, is not called, and the remote-delete
    confirmation is not asked. *)
Lemma C6_declined_switch_skips_remote :
  let git := Sample.git (Sample.mk_repo ["main"; "feature"] ["main"; "feature"]
                           "feature" [] false false) in
  let w := Sample.start ["3"; "feature"; "n"] in
  let run := delete_branch git Sample.clock w in
  let new := since w run.2 in
  run.1 = Returned tt /\
  In (switch_prompt, Some "n") (inputs new) /\
  ~ In ["remote"] (commands new) /\
  typed new = [] /\
  hd_error (printed new) = Some "Abort: please checkout a different branch before deleting.".
Proof.
  cbv zeta. split; [vm_compute; reflexivity |].
  split; [vm_compute; tauto |].
  split; [vm_compute; intuition discriminate |].
  split; [vm_compute; reflexivity |].
  vm_compute. reflexivity.
Qed.

(** C6, amended.  In a run of [delete_branch], whatever the scope, a no at
    the prompt of the switch ends the whole function: nothing is issued or
    logged after it, so neither the local delete nor the remote path runs;
    and before it the run only made queries that change nothing, none of
    them [git remote]. *)
Theorem C6_declined_switch_ends_the_function
    (git : list event -> list string -> CompletedProcess)
    (clock : list event -> datetime) (w : world) (ans : option string) :
  let new := since w (delete_branch git clock w).2 in
  In (switch_prompt, ans) (inputs new) ->
  said_yes ans = false ->
  exists after before,
    new = (after ++ EvInput switch_prompt ans :: before)%list /\
    commands after = [] /\ logged after = [] /\
    Forall before_remote before.
Proof.
  intros new. subst new.
  exact (spec_since _ _ (delete_branch_declined git clock) w ans).
Qed.

(** The amended C6 on the run of the counterexample. *)
Lemma C6_declined_switch_ends_the_function_witness :
  let git := Sample.git (Sample.mk_repo ["main"; "feature"] ["main"; "feature"]
                           "feature" [] false false) in
  let w := Sample.start ["3"; "feature"; "n"] in
  let new := since w (delete_branch git Sample.clock w).2 in
  exists after before,
    new = (after ++ EvInput switch_prompt (Some "n") :: before)%list /\
    commands after = [] /\ logged after = [] /\
    Forall before_remote before.
Proof.
  cbv zeta.
  apply (C6_declined_switch_ends_the_function
           (Sample.git (Sample.mk_repo ["main"; "feature"] ["main"; "feature"]
                          "feature" [] false false))
           Sample.clock (Sample.start ["3"; "feature"; "n"]) (Some "n")).
  - vm_compute. tauto.
  - vm_compute. reflexivity.
Defined.

(* ===================================================================== *)
(** * The local delete path of a merged branch *)
(* ===================================================================== *)







Section MergedDelete.

Variable git : list event -> list string -> CompletedProcess.
Variable clock : list event -> datetime.






End MergedDelete.

Section MergedPath.

Variable git : list event -> list string -> CompletedProcess.
Variable clock : list event -> datetime.


End MergedPath.

(* ===================================================================== *)
(** * The theorems on runs of the sample repository *)
(* ===================================================================== *)

(** C1 on a run: [main] is protected, and the line [delete main] typed at
    its confirmation ends [delete_selected] with nothing issued. *)
Lemma C1_protected_delete_needs_phrase_witness :
  let git := Sample.git (Sample.mk_repo ["main"; "feature"] ["main"] "feature" [] false false) in
  let w := mk_world ["delete main"; "main"] [] in
  let run := delete_selected git Sample.clock (Some "/repo") (Some "feature") "3" "main" w in
  "main" ∈ PROTECTED_BRANCHES /\
  run.1 = Returned tt /\ stdin run.2 = ["main"] /\
  commands (since w run.2) = [] /\ logged (since w run.2) = [].
Proof.
  cbv zeta.
  assert (H : "main" ∈ PROTECTED_BRANCHES)
    by (apply (bool_decide_eq_true_1 _); vm_compute; reflexivity).
  split; [exact H |].
  apply (proj2 (C1_protected_delete_needs_phrase
                  (Sample.git (Sample.mk_repo ["main"; "feature"] ["main"] "feature" [] false false))
                  Sample.clock "main" H)).
  vm_compute. discriminate.
Defined.




#[local] Hint Unfold create_branch commit_changes merge_branch pull_latest
  show_status show_branches : gitcheat.

(* ===================================================================== *)
(** * The guard of every workflow *)
(* ===================================================================== *)

(** What [git rev-parse --is-inside-work-tree] leaves when it fails: the
    call and the message of line 159. *)
Definition outside_repo (w : world) (cp : CompletedProcess) : world :=
  mk_world (stdin w)
    (EvPrint "‚ùå Not inside a Git repository. Run setup first."
     :: EvGit ["rev-parse"; "--is-inside-work-tree"] cp :: events w).

(** A [git] that fails on every call, as outside of a repository. *)
Definition no_repository (_ : list event) (_ : list string) : CompletedProcess :=
  Sample.failed "fatal: not a git repository (or any of the parent directories): .git".

Lemma bind_returned {A B} (m : M A) (k : A -> M B) (w w1 : world) (a : A) :
  m w = (Returned a, w1) -> bind m k w = k a w1.
Proof. unfold bind. now intros ->. Qed.

Section Guard.

Variable git : list event -> list string -> CompletedProcess.
Variable clock : list event -> datetime.

Lemma check_git_repo_fails (w : world) :
  let cp := git (events w) ["rev-parse"; "--is-inside-work-tree"] in
  returncode cp <> 0%Z ->
  check_git_repo git w = (Returned false, outside_repo w cp).
Proof.
  intros cp H. apply Z.eqb_neq in H.
  unfold check_git_repo, bind, run_git, print, emit. cbn [events stdin].
  fold cp. rewrite H. reflexivity.
Qed.

(** Outside of a repository every workflow returns right after the check:
    one call of [git], one message, no line read. *)
Theorem outside_repo_every_workflow_stops (w : world) :
  let cp := git (events w) ["rev-parse"; "--is-inside-work-tree"] in
  returncode cp <> 0%Z ->
  create_branch git w = (Returned tt, outside_repo w cp) /\
  commit_changes git w = (Returned tt, outside_repo w cp) /\
  merge_branch git w = (Returned tt, outside_repo w cp) /\
  pull_latest git w = (Returned tt, outside_repo w cp) /\
  show_status git w = (Returned tt, outside_repo w cp) /\
  show_branches git w = (Returned tt, outside_repo w cp) /\
  delete_branch git clock w = (Returned tt, outside_repo w cp) /\
  push_staging_to_main git clock w = (Returned tt, outside_repo w cp).
Proof.
  intros cp H. pose proof (check_git_repo_fails w H) as E.
  unfold create_branch, commit_changes, merge_branch, pull_latest, show_status,
    show_branches, delete_branch, push_staging_to_main.
  rewrite !(bind_returned _ _ _ _ _ E). repeat split; reflexivity.
Qed.

End Guard.

Lemma outside_repo_every_workflow_stops_witness :
  let w := Sample.start ["feature"; "y"] in
  let cp := no_repository [] ["rev-parse"; "--is-inside-work-tree"] in
  commit_changes no_repository w = (Returned tt, outside_repo w cp) /\
  delete_branch no_repository Sample.clock w = (Returned tt, outside_repo w cp).
Proof.
  cbv zeta.
  destruct (outside_repo_every_workflow_stops no_repository Sample.clock
              (Sample.start ["feature"; "y"])) as (_ & H2 & _ & _ & _ & _ & H7 & _).
  - vm_compute. discriminate.
  - split; [exact H2 | exact H7].
Defined.

(* ===================================================================== *)
(** * The basic commands *)
(* ===================================================================== *)

Lemma commands_cons (e : event) (l : list event) :
  commands (e :: l) = (commands [e] ++ commands l)%list.
Proof. apply (commands_app [e] l). Qed.

Lemma inputs_cons (e : event) (l : list event) :
  inputs (e :: l) = (inputs [e] ++ inputs l)%list.
Proof. apply (inputs_app [e] l). Qed.

Lemma logged_cons (e : event) (l : list event) :
  logged (e :: l) = (logged [e] ++ logged l)%list.
Proof. apply (logged_app [e] l). Qed.

(** Reads the commands, the lines read and the log entries off the history
    of the goal, block by block. *)
Ltac read_history :=
  repeat match goal with
         | H : False |- _ => contradiction
         | H : exists _, _ |- _ => destruct H
         | H : _ /\ _ |- _ => destruct H
         end;
  rewrite <- ?app_assoc; cbn [app];
  repeat first
    [ rewrite commands_app | rewrite inputs_app | rewrite logged_app
    | match goal with
      | |- context [commands (?e :: ?l)] =>
          lazymatch l with [] => fail | _ => rewrite (commands_cons e l) end
      | |- context [inputs (?e :: ?l)] =>
          lazymatch l with [] => fail | _ => rewrite (inputs_cons e l) end
      | |- context [logged (?e :: ?l)] =>
          lazymatch l with [] => fail | _ => rewrite (logged_cons e l) end
      end ];
  repeat match goal with
         | H : commands _ = _ |- _ => rewrite H
         | H : inputs _ = _ |- _ => rewrite H
         | H : logged _ = _ |- _ => rewrite H
         end;
  cbn [commands inputs logged flat_map app rev].

(** Goes through the members of the explicit lists among the hypotheses. *)
Ltac members :=
  repeat match goal with
         | H : In _ (_ :: _) |- _ => destruct H as [H | H]
         | H : In _ [] |- _ => destruct H
         | H : @eq (list string) _ _ |- _ => first [discriminate H | injection H as H; subst]
         | H : @eq (list (list string)) _ _ |- _ => first [discriminate H | injection H as H; subst]
         end.

(** Closes the facts read off an explicit history. *)
Ltac history_facts :=
  repeat match goal with
         | H : (_ || _)%bool = false |- _ => apply orb_false_elim in H; destruct H
         end;
  tests; unfold yes_no;
  repeat first
    [ progress members
    | split
    | progress intros
    | eexists
    | assumption
    | reflexivity
    | solve [simpl; auto 10]
    | solve [unfold affirmative; apply String.eqb_eq; assumption]
    | match goal with
      | H : forall s, ~ In _ _ |- _ => solve [exfalso; eapply H; simpl; eauto 10]
      end
    | solve [left; reflexivity]
    | solve [right; eexists; left; reflexivity]
    | solve [right; eexists; right; reflexivity] ].

Section BasicCommands.

Variable git : list event -> list string -> CompletedProcess.

(** [check_git_repo] makes one query, reads nothing and logs nothing. *)
Lemma check_git_repo_call :
  spec (check_git_repo git)
       (fun new r =>
          match r with
          | Returned _ =>
              commands new = [["rev-parse"; "--is-inside-work-tree"]] /\
              inputs new = [] /\ logged new = []
          | Raised _ => False
          end).
Proof. apply spec_wp. intros w. wp_steps no_block; cbn; auto. Qed.

(** [print_run_git] makes the one call it is given, reads nothing and logs
    nothing. *)
Lemma print_run_git_call (args : list string) :
  spec (print_run_git git args)
       (fun new r =>
          match r with
          | Returned _ => commands new = [args] /\ inputs new = [] /\ logged new = []
          | Raised _ => False
          end).
Proof. apply spec_wp. intros w. wp_steps no_block; cbn; auto. Qed.

(** [commit_changes] never commits without a message: the message of
    [commit -m] is the line read at the prompt, stripped and not empty; it
    pushes only after a yes; and its calls are the check, then [add .] and
    [commit -m] together, then the push, whatever [add] and [commit]
    returned. *)
Theorem commit_changes_needs_message (w : world) :
  let new := since w (commit_changes git w).2 in
  (forall msg, In ["commit"; "-m"; msg] (commands new) ->
     Py.nonempty msg = true /\
     exists a, In ("Commit message: ", Some a) (inputs new) /\ msg = Py.strip a) /\
  (In ["push"] (commands new) ->
     exists a, In (yes_no "Push changes to remote?", Some a) (inputs new) /\
               affirmative a = true) /\
  exists tail,
    rev (commands new) = ["rev-parse"; "--is-inside-work-tree"] :: tail /\
    (tail = [] \/
     exists msg, tail = [["add"; "."]; ["commit"; "-m"; msg]] \/
                 tail = [["add"; "."]; ["commit"; "-m"; msg]; ["push"]]).
Proof.
  cbv zeta. as_wp.
  wp_steps ltac:(first [ block check_git_repo check_git_repo_call
                       | block print_run_git print_run_git_call ]).
  all: read_history.
  all: history_facts.
Qed.

(** [create_branch] creates no branch without a name: the name given to
    [checkout -b] is the line read, stripped and not empty; and it pushes
    only after a yes, and then the branch it created. *)
Theorem create_branch_needs_name (w : world) :
  let new := since w (create_branch git w).2 in
  (forall args, In ("checkout" :: args) (commands new) ->
     exists a, In ("Enter new branch name: ", Some a) (inputs new) /\
               Py.nonempty (Py.strip a) = true /\ args = ["-b"; Py.strip a]) /\
  (forall args, In ("push" :: args) (commands new) ->
     exists a b, In (yes_no "Push new branch to remote?", Some a) (inputs new) /\
                 affirmative a = true /\
                 args = ["-u"; "origin"; b] /\ In ["checkout"; "-b"; b] (commands new)).
Proof.
  cbv zeta. as_wp.
  wp_steps ltac:(first [ block check_git_repo check_git_repo_call
                       | block print_run_git print_run_git_call ]).
  all: read_history.
  all: history_facts.
Qed.

(** [merge_branch] merges only with both names given and after a yes; it
    then checks out the target, pulls and merges the source, in this order
    and whatever each returned; and it pushes only after a second yes. *)
Theorem merge_branch_needs_consent (w : world) :
  let new := since w (merge_branch git w).2 in
  (forall source, In ["merge"; source] (commands new) ->
     exists target a,
       In (yes_no ("Merge '" ++ source ++ "' into '" ++ target ++ "'?"), Some a) (inputs new) /\
       affirmative a = true /\
       Py.nonempty source = true /\ Py.nonempty target = true /\
       exists later,
         rev (commands new) =
           (["rev-parse"; "--is-inside-work-tree"] :: ["checkout"; target] :: ["pull"]
            :: ["merge"; source] :: later)%list) /\
  (In ["push"] (commands new) ->
     exists a, In (yes_no "Push merged changes to remote?", Some a) (inputs new) /\
               affirmative a = true) /\
  ((forall source, ~ In ["merge"; source] (commands new)) ->
     rev (commands new) = [["rev-parse"; "--is-inside-work-tree"]]).
Proof.
  cbv zeta. as_wp.
  wp_steps ltac:(first [ block check_git_repo check_git_repo_call
                       | block print_run_git print_run_git_call ]).
  all: read_history.
  all: history_facts.
Qed.

End BasicCommands.

(* ===================================================================== *)
(** * The views *)
(* ===================================================================== *)

Section Views.

Variable git : list event -> list string -> CompletedProcess.

(** [print_run_git] as one step: the call it is given, no line read, no
    log entry, and no change when the call is a query. *)
Lemma wp_print_run_git (args : list string) w
    (Q : list event -> outcome CompletedProcess -> world -> Prop) :
  (forall new cp,
      commands new = [args] -> inputs new = [] -> logged new = [] ->
      (mutating args = false -> harmless new) ->
      Q new (Returned cp) (mk_world (stdin w) (new ++ events w))) ->
  wp (print_run_git git args) w Q.
Proof.
  intros H. wp_steps no_block.
  all: match goal with |- ?q ?l (Returned _) _ => apply (H l) end.
  all: try reflexivity.
  all: intros Hm; unfold harmless; repeat constructor; exact Hm.
Qed.

(** [check_git_repo] as one step: one query and, when it fails, one
    message. *)
Lemma wp_check_git_repo w (Q : list event -> outcome bool -> world -> Prop) :
  (forall new ok,
      ok = (returncode (git (events w) ["rev-parse"; "--is-inside-work-tree"]) =? 0)%Z ->
      commands new = [["rev-parse"; "--is-inside-work-tree"]] ->
      inputs new = [] -> logged new = [] -> harmless new ->
      Q new (Returned ok) (mk_world (stdin w) (new ++ events w))) ->
  wp (check_git_repo git) w Q.
Proof.
  intros H. wp_steps no_block.
  all: match goal with |- ?q ?l (Returned _) _ => apply (H l) end.
  all: try reflexivity.
  all: try (unfold harmless; repeat constructor).
  all: subst cp; now rewrite Heqb.
Qed.

(** The calls of the basic commands, each as one step. *)
Ltac call_step :=
  idtac;
  lazymatch goal with
  | |- wp (print_run_git _ _) _ _ =>
      apply wp_print_run_git; intros ?new ?cp ?Hc ?Hi ?Hl ?Hh;
      try match goal with
          | H : mutating _ = false -> _ |- _ => specialize (H eq_refl)
          end
  | |- wp (check_git_repo _) _ _ =>
      apply wp_check_git_repo; intros ?new ?ok ?Hok ?Hc ?Hi ?Hl ?Hh
  | _ => fail
  end.

(** [show_status] and [show_branches] are read-only: they return, read no
    line, write nothing to the audit log, and every call of [git] they make
    is a query ([rev-parse], [status], [branch -vv], [branch -r],
    [branch -a]), whatever [git] answers. *)
Theorem views_are_read_only (w : world) :
  (let run := show_status git w in
   run.1 = Returned tt /\ stdin run.2 = stdin w /\ harmless (since w run.2) /\
   (rev (commands (since w run.2)) = [["rev-parse"; "--is-inside-work-tree"]] \/
    rev (commands (since w run.2)) =
      [["rev-parse"; "--is-inside-work-tree"]; ["status"; "--short"; "--branch"]])) /\
  (let run := show_branches git w in
   run.1 = Returned tt /\ stdin run.2 = stdin w /\ harmless (since w run.2) /\
   (rev (commands (since w run.2)) = [["rev-parse"; "--is-inside-work-tree"]] \/
    rev (commands (since w run.2)) =
      [["rev-parse"; "--is-inside-work-tree"]; ["branch"; "-vv"]; ["branch"; "-r"];
       ["branch"; "-a"]])).
Proof.
  cbv zeta. split.
  - as_wp. wp_steps call_step.
    all: cbn [stdin]; split; [reflexivity | split; [reflexivity | split]].
    all: try (unfold harmless in *; each_event; reflexivity).
    all: read_history; auto.
  - as_wp. wp_steps call_step.
    all: cbn [stdin]; split; [reflexivity | split; [reflexivity | split]].
    all: try (unfold harmless in *; each_event; reflexivity).
    all: read_history; auto.
Qed.

(** [pull_latest] in a repository makes the check and then one [pull],
    reads no line and logs nothing. *)
Theorem pull_latest_pulls_once (w : world) :
  returncode (git (events w) ["rev-parse"; "--is-inside-work-tree"]) = 0%Z ->
  let run := pull_latest git w in
  run.1 = Returned tt /\ stdin run.2 = stdin w /\
  rev (commands (since w run.2)) = [["rev-parse"; "--is-inside-work-tree"]; ["pull"]] /\
  logged (since w run.2) = [].
Proof.
  intros H. cbv zeta. apply Z.eqb_eq in H. as_wp. wp_steps call_step.
  all: try congruence.
  all: cbn [stdin]; split; [reflexivity | split; [reflexivity |]].
  all: read_history; auto.
Qed.

End Views.

Lemma pull_latest_pulls_once_witness :
  let git := Sample.git (Sample.mk_repo ["main"] ["main"] "main" [] false false) in
  let w := Sample.start ["y"] in
  let run := pull_latest git w in
  run.1 = Returned tt /\ stdin run.2 = stdin w /\
  rev (commands (since w run.2)) = [["rev-parse"; "--is-inside-work-tree"]; ["pull"]] /\
  logged (since w run.2) = [].
Proof.
  cbv zeta.
  apply (pull_latest_pulls_once
           (Sample.git (Sample.mk_repo ["main"] ["main"] "main" [] false false))
           (Sample.start ["y"])).
  vm_compute. reflexivity.
Defined.


(* ===================================================================== *)
(** * The audit log *)
(* ===================================================================== *)

(** A timestamp of the audit log: [YYYY-MM-DD], the letter T, [HH:MM:SS],
    the letter Z. *)
Definition iso_utc (s : string) : bool :=
  match list_ascii_of_string s with
  | [y1; y2; y3; y4; a; m1; m2; b; d1; d2; t; h1; h2; c; n1; n2; d; s1; s2; z] =>
      forallb isdigit [y1; y2; y3; y4; m1; m2; d1; d2; h1; h2; n1; n2; s1; s2]
      && Ascii.eqb a "-" && Ascii.eqb b "-" && Ascii.eqb t "T"
      && Ascii.eqb c ":" && Ascii.eqb d ":" && Ascii.eqb z "Z"
  | _ => false
  end.


(** The messages the workflows write to the audit log, lines 126, 129, 289,
    310, 339 and 422. *)
Definition audit_message (msg : string) : Prop :=
  (exists b, msg = "Deleted local branch " ++ b) \/
  (exists b, msg = "Force-deleted local branch " ++ b) \/
  (exists b, msg = "Deleted remote branch origin/" ++ b) \/
  (exists t b, msg = "Created backup tag " ++ t ++ " for branch " ++ b) \/
  (exists t, msg = "Pushed tag " ++ t ++ " to origin") \/
  (exists m, msg = promotion_msg m).

(** An entry of the audit log as the workflows write it: under the
    repository given, with a timestamp in the form of the log and one of
    the messages. *)
Definition audit_entry (root : option string) (e : event) : Prop :=
  match e with
  | EvLog path ts msg =>
      Py.truthy root = true /\
      path = Py.path_join (Py.show root) LOG_FILENAME /\
      iso_utc ts = true /\ audit_message msg
  | _ => True
  end.

Lemma iso_utc_strftime (t : datetime) : iso_utc (strftime_iso t) = true.
Proof.
  unfold iso_utc, strftime_iso, fmt4, fmt2. simpl.
  rewrite !isdigit_digit. reflexivity.
Qed.


(** As [only_steps], keeping the result of every test. *)
Ltac only_tests :=
  autounfold with gitcheat;
  repeat first
    [ apply only_bind; [| intros ?]
    | apply only_ret
    | apply only_raise
    | apply only_utcnow
    | apply only_emit
    | apply only_input; intros ?
    | apply only_run_git; intros ?
    | progress autounfold with gitcheat
    | match goal with
      | |- only _ (if ?b then _ else _) => destruct b eqn:?
      | |- only _ (match ?x with _ => _ end) => destruct x
      | |- only _ (let _ := _ in _) => cbv zeta
      end ].

Section AuditLog.

Variable git : list event -> list string -> CompletedProcess.
Variable clock : list event -> datetime.


(** Closes the goal that an explicit event is an entry as the workflows
    write it. *)
Ltac audit_goal :=
  cbv beta; cbn [audit_entry];
  first
    [ exact I
    | split; [tests; assumption |];
      split; [reflexivity |];
      split; [apply iso_utc_strftime |];
      unfold audit_message, promotion_msg;
      first [ left; eexists; reflexivity
            | right; left; eexists; reflexivity
            | right; right; left; eexists; reflexivity
            | right; right; right; left; do 2 eexists; reflexivity
            | right; right; right; right; left; eexists; reflexivity
            | right; right; right; right; right; eexists; reflexivity ] ].

Lemma delete_selected_audit root current choice branch :
  only (audit_entry root) (delete_selected git clock root current choice branch).
Proof. only_tests; audit_goal. Qed.







End AuditLog.


(* ===================================================================== *)
(** * The backup tag and the remote *)
(* ===================================================================== *)

(** The remotes [remote_delete_flow] reads off the answer of [git remote],
    line 320. *)
Definition remotes_of (cp : CompletedProcess) : list string :=
  if (returncode cp =? 0)%Z then Py.split (stdout cp) else [].

Section TagAndRemote.

Variable git : list event -> list string -> CompletedProcess.
Variable clock : list event -> datetime.

(** [branch_exists_remote] makes one query, reads nothing and logs
    nothing. *)
Lemma branch_exists_remote_call (branch remote : string) :
  spec (branch_exists_remote git branch remote)
       (fun new r =>
          match r with
          | Returned _ =>
              commands new = [["ls-remote"; "--heads"; remote]] /\
              inputs new = [] /\ logged new = []
          | Raised _ => False
          end).
Proof. apply spec_wp. intros w. wp_steps no_block; cbn; auto. Qed.

(** [log_action] calls no [git] and reads nothing. *)
Lemma log_action_call (root : option string) (msg : string) :
  spec (log_action clock root msg)
       (fun new r =>
          match r with
          | Returned _ =>
              commands new = [] /\ inputs new = [] /\
              logged new = (if Py.truthy root then [msg] else [])
          | Raised _ => False
          end).
Proof.
  apply spec_wp. intros w. wp_steps no_block; cbn; tests.
  all: repeat match goal with H : Py.truthy _ = _ |- _ => rewrite H end; auto.
Qed.

(** [create_backup_tag] gives [None] when [git tag] fails, and has then
    done nothing else: no entry in the audit log, no prompt, no push.  It
    pushes only the tag it made, and only after a yes at the prompt of the
    push; and when it returns a name, the name is the one it gave to
    [git tag], which returned zero. *)
Theorem create_backup_tag_fails_quietly (branch : string) (root : option string) (w : world) :
  let tag := backup_tag_name branch (clock (events w)) in
  let cp := git (events w) ["tag"; tag; branch] in
  let run := create_backup_tag git clock branch root w in
  let new := since w run.2 in
  (returncode cp <> 0%Z ->
   run =
   (Returned None,
    mk_world (stdin w)
      (EvPrint ("‚ùå Failed to create tag " ++ tag ++ ": " ++ Py.strip (stderr cp))
       :: EvGit ["tag"; tag; branch] cp :: events w))) /\
  (forall args, In ("push" :: args) (commands new) ->
     args = ["origin"; tag] /\
     exists a, In (yes_no "Push the backup tag to 'origin'?", Some a) (inputs new) /\
               affirmative a = true) /\
  (forall t, run.1 = Returned (Some t) ->
     t = tag /\ returncode cp = 0%Z /\ In ["tag"; tag; branch] (commands new)).
Proof.
  cbv zeta. split; [| split].
  - intros H. apply Z.eqb_neq in H.
    unfold create_backup_tag, bind, utcnow, run_git, print, emit. cbn [events stdin].
    rewrite H. reflexivity.
  - as_wp.
    wp_steps ltac:(first [ block branch_exists_remote branch_exists_remote_call
                         | block log_action log_action_call ]).
    all: read_history.
    all: history_facts.
  - as_wp.
    wp_steps ltac:(first [ block branch_exists_remote branch_exists_remote_call
                         | block log_action log_action_call ]).
    all: intros t Ht; try discriminate.
    all: repeat match goal with H : False |- _ => contradiction end.
    all: injection Ht as <-.
    all: split; [reflexivity |]; split; [codes; subst cp; assumption |].
    all: read_history; simpl; auto 10.
Qed.

(** [remote_delete_flow] stops at once when [git remote] fails or does not
    list [origin]: it prints one message, asks nothing and calls nothing
    else.  It issues [push origin --delete] only for the branch given,
    only with [origin] among the remotes, and only after the branch name
    was typed at the confirmation. *)
Theorem remote_delete_flow_needs_origin (root : option string) (branch : string) (w : world) :
  let cp := git (events w) ["remote"] in
  let run := remote_delete_flow git clock root branch w in
  let new := since w run.2 in
  (~ In "origin" (remotes_of cp) ->
   run =
   (Returned tt,
    mk_world (stdin w)
      (EvPrint "‚ùå Remote 'origin' not configured; cannot delete remote branch."
       :: EvGit ["remote"] cp :: events w))) /\
  (forall args, In ("push" :: args) (commands new) ->
     args = ["origin"; "--delete"; branch] /\
     In "origin" (remotes_of cp) /\
     exists a, In (typed_prompt, Some a) (inputs new) /\ Py.strip a = branch).
Proof.
  cbv zeta. split.
  - intros H.
    assert (E : Py.mem "origin" (remotes_of (git (events w) ["remote"])) = false).
    { unfold Py.mem. apply bool_decide_eq_false_2. now rewrite list_elem_of_In. }
    unfold remote_delete_flow, bind, run_git, print, emit. cbn [events stdin].
    unfold remotes_of in E. rewrite E. reflexivity.
  - as_wp.
    wp_steps ltac:(first [ block branch_exists_remote branch_exists_remote_call
                         | block remote_delete_gate remote_delete_gate_spec ]).
    all: read_history.
    all: try match goal with
             | H : commands _ = (if typed_ok ?b ?ans then _ else _) |- _ =>
                 destruct (typed_ok b ans) eqn:Hk;
                 [apply typed_ok_iff in Hk; destruct Hk as (? & -> & ?) |]
             end.
    all: read_history.
    all: history_facts.
    all: apply list_elem_of_In; unfold remotes_of; subst cp.
    all: exact (bool_decide_eq_true_1 _ Heqb).
Qed.

End TagAndRemote.


(* ===================================================================== *)
(** * What the delete workflow refuses and records *)
(* ===================================================================== *)

Section DeleteEdges.

Variable git : list event -> list string -> CompletedProcess.
Variable clock : list event -> datetime.

Lemma delete_selected_any root current choice branch :
  spec (delete_selected git clock root current choice branch) (fun _ _ => True).
Proof. intros w. exists (since w (delete_selected git clock root current choice branch w).2).
  split; [| exact I].
  destruct (delete_selected_audit git clock root current choice branch w) as (new & E & _).
  now rewrite (since_app _ _ _ E).
Qed.

(** In a repository, [delete_branch] given a scope that is not 1, 2 or 3
    prints that the choice is invalid and returns: it does not ask for a
    branch, and it has only made its three queries.  Given a valid scope
    and an empty branch name it says so and returns in the same way. *)
Theorem delete_branch_refuses_bad_input (w : world) (c : string) (rest : list string) :
  returncode (git (events w) ["rev-parse"; "--is-inside-work-tree"]) = 0%Z ->
  stdin w = c :: rest ->
  let run := delete_branch git clock w in
  let new := since w run.2 in
  let queries := [["rev-parse"; "--is-inside-work-tree"]; ["rev-parse"; "--show-toplevel"];
                  ["rev-parse"; "--abbrev-ref"; "HEAD"]] in
  (bool_decide (Py.strip c ∈ ({[ "1"; "2"; "3" ]} : gset string)) = false ->
   run.1 = Returned tt /\ stdin run.2 = rest /\
   rev (commands new) = queries /\ logged new = [] /\
   inputs new = [("> ", Some c)] /\
   hd_error (printed new) = Some "‚ùå Invalid choice.") /\
  (forall b rest',
      bool_decide (Py.strip c ∈ ({[ "1"; "2"; "3" ]} : gset string)) = true ->
      rest = b :: rest' -> Py.nonempty (Py.strip b) = false ->
      run.1 = Returned tt /\ stdin run.2 = rest' /\
      rev (commands new) = queries /\ logged new = [] /\
      inputs new = [("Branch name to delete: ", Some b); ("> ", Some c)] /\
      hd_error (printed new) = Some "‚ùå Branch name cannot be empty.").
Proof.
  intros Hrepo Hin. cbv zeta. apply Z.eqb_eq in Hrepo. split.
  - intros Hc. as_wp.
    wp_steps ltac:(block delete_selected delete_selected_any).
    all: try (repeat match goal with x := _ |- _ => subst x end; congruence).
    all: cbn [stdin]; repeat split; reflexivity.
  - intros b rest' Hc -> Hb. as_wp.
    wp_steps ltac:(block delete_selected delete_selected_any).
    all: try (repeat match goal with x := _ |- _ => subst x end; congruence).
    all: cbn [stdin]; repeat split; reflexivity.
Qed.


End DeleteEdges.

(** On a run: the scope 4 is refused. *)
Lemma delete_branch_refuses_bad_input_witness :
  let git := Sample.git (Sample.mk_repo ["main"] ["main"] "main" [] false false) in
  let w := Sample.start ["4"; "main"] in
  let run := delete_branch git Sample.clock w in
  run.1 = Returned tt /\ stdin run.2 = ["main"] /\
  logged (since w run.2) = [] /\ inputs (since w run.2) = [("> ", Some "4")].
Proof.
  cbv zeta.
  destruct (delete_branch_refuses_bad_input
              (Sample.git (Sample.mk_repo ["main"] ["main"] "main" [] false false))
              Sample.clock (Sample.start ["4"; "main"]) "4" ["main"]) as [H _].
  - vm_compute. reflexivity.
  - reflexivity.
  - destruct H as (H1 & H2 & _ & H4 & H5 & _); [vm_compute; reflexivity |].
    repeat split; assumption.
Defined.


(* ===================================================================== *)
(** * The scopes of the delete workflow *)
(* ===================================================================== *)

(** A call of the local path: no [git remote] and no [push origin
    --delete]. *)
Definition local_call (e : event) : Prop :=
  match e with
  | EvGit args _ => args <> ["remote"] /\ forall b, args <> ["push"; "origin"; "--delete"; b]
  | _ => True
  end.

(** A call of the remote path for [branch]: [git remote], the query of
    the heads of origin, or the delete of [branch] on origin. *)
Definition remote_call (branch : string) (e : event) : Prop :=
  match e with
  | EvGit args _ =>
      args = ["remote"] \/ args = ["ls-remote"; "--heads"; "origin"] \/
      args = ["push"; "origin"; "--delete"; branch]
  | _ => True
  end.

(** The test of a scope that cannot have come out as the hypothesis says. *)
Ltac wrong_scope :=
  match goal with
  | H : bool_decide (?x ∈ _) = _ |- _ =>
      lazymatch x with
      | String _ _ => solve [vm_compute in H; discriminate H]
      end
  end.

Section Scopes.

Variable git : list event -> list string -> CompletedProcess.
Variable clock : list event -> datetime.

Lemma local_delete_flow_local root current branch :
  only local_call (local_delete_flow git clock root current branch).
Proof.
  only_steps; cbn [local_call]; try exact I.
  all: split; [discriminate | intros b0; discriminate].
Qed.

Lemma remote_delete_flow_remote root branch :
  only (remote_call branch) (remote_delete_flow git clock root branch).
Proof. only_steps; cbn [remote_call]; tauto. Qed.

(** The scopes of [delete_branch] are kept apart: with scope 1 no call is
    [git remote] or a delete on origin, and with scope 2 every call is
    [git remote], the query of the heads of origin, or the delete of the
    branch on origin: no local branch is deleted, no tag is made. *)
Theorem delete_scopes_are_kept_apart root current branch (w : world) :
  Forall local_call (since w (delete_selected git clock root current "1" branch w).2) /\
  Forall (remote_call branch)
         (since w (delete_selected git clock root current "2" branch w).2).
Proof.
  split.
  - as_wp.
    wp_steps ltac:(first [ block local_delete_flow local_delete_flow_local
                         | block remote_delete_flow remote_delete_flow_remote ]).
    all: try discriminate.
    all: try wrong_scope.
    all: each_event; exact I.
  - as_wp.
    wp_steps ltac:(first [ block local_delete_flow local_delete_flow_local
                         | block remote_delete_flow remote_delete_flow_remote ]).
    all: try discriminate.
    all: try wrong_scope.
    all: each_event; exact I.
Qed.

End Scopes.

(* ===================================================================== *)
(** * Reading the answers of git *)
(* ===================================================================== *)

(** [strip] leaves nothing exactly of the strings of whitespace. *)
Lemma strip_empty_iff (s : string) : Py.strip s = EmptyString <-> whitespace s.
Proof.
  split.
  - intros E. destruct (strip_trims s) as (l & r & Hl & Hr & Es).
    rewrite E, append_nil_l in Es. subst s. now apply whitespace_app.
  - intros H.
    assert (B : bare EmptyString) by (apply bare_iff; reflexivity).
    pose proof (strip_bare s EmptyString EmptyString H ws_nil B) as E.
    now rewrite append_nil_l, append_nil_r in E.
Qed.

Section Answers.

Variable git : list event -> list string -> CompletedProcess.

(** [is_working_tree_clean] makes one query and answers yes exactly when
    [git status --porcelain] returns zero and prints nothing but
    whitespace: a status that fails counts as not clean. *)
Theorem is_working_tree_clean_iff_whitespace (w : world) :
  let cp := git (events w) ["status"; "--porcelain"] in
  exists clean,
    is_working_tree_clean git w =
    (Returned clean,
     mk_world (stdin w) (EvGit ["status"; "--porcelain"] cp :: events w)) /\
    (clean = true <-> returncode cp = 0%Z /\ whitespace (stdout cp)).
Proof.
  intros cp. unfold is_working_tree_clean, bind, run_git. cbn [events stdin]. fold cp.
  destruct (returncode cp =? 0)%Z eqn:E; cbn [negb]; eexists; (split; [reflexivity |]).
  - apply Z.eqb_eq in E. rewrite <- strip_empty_iff. split.
    + intros H. split; [exact E |]. destruct (Py.strip (stdout cp)); [reflexivity | discriminate].
    + intros [_ H]. now rewrite H.
  - apply Z.eqb_neq in E. split; [discriminate | tauto].
Qed.

(** [choose_primary_branch] prefers [develop], then [main], then [master],
    then the first local branch; what it gives is a local branch, and it
    gives [None] exactly when there is no local branch.  It asks [git] for
    the local branches once and does nothing else. *)
Theorem choose_primary_branch_policy (w : world) :
  exists locals,
    list_local_branches git w = (Returned locals, (choose_primary_branch git w).2) /\
    let r := (choose_primary_branch git w).1 in
    (In "develop" locals -> r = Returned (Some "develop")) /\
    (~ In "develop" locals -> In "main" locals -> r = Returned (Some "main")) /\
    (~ In "develop" locals -> ~ In "main" locals -> In "master" locals ->
     r = Returned (Some "master")) /\
    (~ In "develop" locals -> ~ In "main" locals -> ~ In "master" locals ->
     r = Returned (List.head locals)) /\
    (forall b, r = Returned (Some b) -> In b locals) /\
    (r = Returned None <-> locals = []).
Proof.
  unfold choose_primary_branch, bind.
  assert (H : exists l w1, list_local_branches git w = (Returned l, w1)).
  { unfold list_local_branches, bind, run_git.
    destruct (negb _); eexists _, _; reflexivity. }
  destruct H as (l & w1 & E). rewrite E. exists l.
  cbn [find].
  destruct (Py.mem "develop" l) eqn:Ed;
    [| destruct (Py.mem "main" l) eqn:Em;
       [| destruct (Py.mem "master" l) eqn:Es ] ].
  all: unfold Py.mem in *.
  all: cbn [fst snd ret]; split; [reflexivity |]; clear E.
  all: repeat match goal with
              | H : bool_decide (?x ∈ ?l) = true |- _ =>
                  assert (In x l)
                    by (apply list_elem_of_In; exact (bool_decide_eq_true_1 _ H));
                  clear H
              | H : bool_decide (?x ∈ ?l) = false |- _ =>
                  assert (~ In x l)
                    by (rewrite <- list_elem_of_In; exact (bool_decide_eq_false_1 _ H));
                  clear H
              end.
  all: repeat split; intros; try tauto; try congruence.
  all: try match goal with H : Returned _ = Returned _ |- _ => injection H as H; subst end.
  all: try assumption; try discriminate.
  all: destruct l as [|b0 l]; try discriminate; try reflexivity; cbn in *.
  all: try match goal with H : Some _ = Some _ |- _ => injection H as H; subst end.
  all: auto; try tauto.
Qed.

End Answers.

(* ===================================================================== *)
(** * Reading the lists of branches *)
(* ===================================================================== *)

(** A byte of a word: a printable ASCII character other than the space. *)
Definition word_char (c : ascii) : bool :=
  ((33 <=? N_of_ascii c)%N && (N_of_ascii c <=? 126)%N)%bool.

(** A byte of a line of text: a byte of a word, a space or a TAB. *)
Definition line_char (c : ascii) : bool :=
  word_char c || Ascii.eqb c " " || Ascii.eqb c "009".

(** Every byte of [s] passes the test. *)
Fixpoint all_bytes (P : ascii -> bool) (s : string) : bool :=
  match s with
  | EmptyString => true
  | String c r => P c && all_bytes P r
  end.

(** A word: made of bytes of a word. *)
Definition word (s : string) : bool := all_bytes word_char s.

(** A line of text: words, spaces and TABs. *)
Definition text_line (s : string) : bool := all_bytes line_char s.

(** The line of [git ls-remote --heads] for a branch: the object name, a
    TAB, and the reference. *)
Definition head_line (h : string * string) : string :=
  h.1 ++ Sample.tab ++ "refs/heads/" ++ h.2.

Lemma all_bytes_app (P : ascii -> bool) (s t : string) :
  all_bytes P (s ++ t) = all_bytes P s && all_bytes P t.
Proof.
  induction s as [|c s IH]; [reflexivity |].
  rewrite append_cons. cbn [all_bytes]. now rewrite IH, andb_assoc.
Qed.

Lemma word_app (s t : string) : word (s ++ t) = word s && word t.
Proof. apply all_bytes_app. Qed.

Lemma word_text_line (s : string) : word s = true -> text_line s = true.
Proof.
  unfold word, text_line. induction s as [|c s IH]; [reflexivity |].
  cbn [all_bytes]. intros H. apply andb_true_iff in H. destruct H as [Hc Hs].
  rewrite (IH Hs), andb_true_r. unfold line_char. now rewrite Hc.
Qed.

(** No whitespace character and no line boundary starts with a byte of a
    word. *)
Lemma word_char_no_space (c : ascii) (r : string) :
  word_char c = true -> Py.skip_space (String c r) = None.
Proof.
  destruct c as [[] [] [] [] [] [] [] []]; vm_compute; try discriminate.
  all: intros _; destruct r as [|c2 [|c3 r3]]; reflexivity.
Qed.

Lemma word_char_space_width (c : ascii) (r : string) :
  word_char c = true -> Py.space_width (String c r) = 0.
Proof. intros H. unfold Py.space_width. now rewrite (word_char_no_space c r H). Qed.

Lemma line_char_line_width (c : ascii) (r : string) :
  line_char c = true -> Py.line_width (String c r) = 0.
Proof.
  destruct c as [[] [] [] [] [] [] [] []]; vm_compute; try discriminate.
  all: intros _; destruct r as [|c2 [|c3 r3]]; reflexivity.
Qed.

(** A field and the separator of one byte after it come off the front of
    the fields. *)
Lemma fields_from_field (P : ascii -> bool) (width : string -> nat) (s : string)
    (c0 : ascii) (rest : string) :
  (forall c r, P c = true -> width (String c r) = 0) ->
  width (String c0 rest) = 1 ->
  all_bytes P s = true ->
  Py.fields_from width 0 (s ++ String c0 rest) = s :: Py.fields_from width 0 rest.
Proof.
  intros Hw H0. induction s as [|c s IH]; intros Hs.
  - rewrite append_nil_l. cbn [Py.fields_from]. now rewrite H0.
  - cbn [all_bytes] in Hs. apply andb_true_iff in Hs. destruct Hs as [Hc Hs].
    rewrite append_cons. cbn [Py.fields_from]. now rewrite (Hw c _ Hc), (IH Hs).
Qed.

Lemma fields_from_last (P : ascii -> bool) (width : string -> nat) (s : string) :
  (forall c r, P c = true -> width (String c r) = 0) ->
  all_bytes P s = true -> Py.fields_from width 0 s = [s].
Proof.
  intros Hw. induction s as [|c s IH]; intros Hs; [reflexivity |].
  cbn [all_bytes] in Hs. apply andb_true_iff in Hs. destruct Hs as [Hc Hs].
  cbn [Py.fields_from]. now rewrite (Hw c _ Hc), (IH Hs).
Qed.

(** [strip] leaves a word as it is. *)
Lemma strip_word (s : string) : word s = true -> Py.strip s = s.
Proof.
  intros Hs. apply bare_iff. split.
  - destruct s as [|c s]; [reflexivity |].
    cbn [word all_bytes] in Hs. apply andb_true_iff in Hs. now apply word_char_no_space.
  - intros u v -> Hv. rewrite word_app in Hs. apply andb_true_iff in Hs.
    destruct Hs as [_ Hs]. destruct v as [|c v]; [reflexivity |].
    cbn [word all_bytes] in Hs. apply andb_true_iff in Hs. destruct Hs as [Hc _].
    destruct (whitespace_inv _ Hv ltac:(discriminate)) as (r & E & _).
    rewrite (word_char_no_space c v Hc) in E. discriminate.
Qed.

Lemma line_width_nl (rest : string) : Py.line_width (String "010" rest) = 1.
Proof. destruct rest; reflexivity. Qed.

Lemma space_width_tab (rest : string) : Py.space_width (String "009" rest) = 1.
Proof.
  unfold Py.space_width. cbn [Py.skip_space].
  change (Py.isspace "009") with true. cbn [String.length]. lia.
Qed.

Lemma fields_lines_unlines (l : list string) :
  Forall (fun s => text_line s = true) l ->
  Py.fields_lines (Sample.unlines l) = (l ++ [EmptyString])%list.
Proof.
  induction 1 as [|s l Hs _ IH]; [reflexivity |].
  cbn [Sample.unlines fold_right app].
  change (s ++ Py.nl ++ fold_right (fun x acc => x ++ Py.nl ++ acc) EmptyString l)
    with (s ++ String "010" (Sample.unlines l)).
  unfold Py.fields_lines in *.
  rewrite (fields_from_field line_char Py.line_width s "010" _ line_char_line_width
             (line_width_nl _) Hs).
  now rewrite IH.
Qed.

(** [splitlines] gives back the lines of text that were written. *)
Lemma splitlines_unlines (l : list string) :
  Forall (fun s => text_line s = true) l -> Py.splitlines (Sample.unlines l) = l.
Proof.
  intros H. unfold Py.splitlines. rewrite (fields_lines_unlines _ H).
  rewrite last_last. cbn [Py.nonempty]. apply removelast_last.
Qed.

Lemma substring_all (s : string) : String.substring 0 (String.length s) s = s.
Proof. induction s as [|c s IH]; simpl; [reflexivity | now rewrite IH]. Qed.

(** The line of a branch gives its name. *)
Lemma remote_head_line (sha b : string) :
  Py.nonempty sha = true -> word sha = true -> word b = true ->
  remote_head (head_line (sha, b)) = [b].
Proof.
  intros Hn Hs Hb. unfold remote_head, head_line, Py.split, Py.fields_ws, Sample.tab.
  unfold word in *. cbn [fst snd].
  change (String "009" EmptyString ++ "refs/heads/" ++ b)
    with (String "009" ("refs/heads/" ++ b)).
  rewrite (fields_from_field word_char Py.space_width sha "009" _ word_char_space_width
             (space_width_tab _) Hs).
  assert (Hr : all_bytes word_char ("refs/heads/" ++ b) = true)
    by (rewrite all_bytes_app, Hb; reflexivity).
  rewrite (fields_from_last word_char _ _ word_char_space_width Hr).
  destruct sha as [|c sha]; [discriminate |].
  unfold Py.startswith, Py.drop. simpl. rewrite ?Nat.sub_0_r.
  change (EmptyString ++ b) with b.
  replace (String.prefix EmptyString b) with true by (now destruct b).
  now rewrite substring_all.
Qed.

Lemma strip_names (names : list string) :
  Forall (fun b => Py.nonempty b = true /\ word b = true) names ->
  List.map Py.strip
    (List.filter (fun b => Py.nonempty (Py.strip b)) names) = names.
Proof.
  induction 1 as [|b l [Hn Hs] _ IH]; [reflexivity |].
  cbn [List.filter]. rewrite (strip_word _ Hs), Hn. cbn [List.map].
  now rewrite (strip_word _ Hs), IH.
Qed.

Lemma head_line_text (h : string * string) :
  word h.1 = true -> word h.2 = true -> text_line (head_line h) = true.
Proof.
  intros H1 H2. unfold head_line, text_line.
  rewrite !all_bytes_app. apply word_text_line in H1, H2. unfold text_line in H1, H2.
  rewrite H1, H2. reflexivity.
Qed.

Section Listings.

Variable git : list event -> list string -> CompletedProcess.

(** [list_local_branches] gives no branch when [git branch] fails, and
    gives back the names [git branch] printed one per line, for names that
    are not empty and made of printable ASCII characters other than the
    space. *)
Theorem list_local_branches_reads_names (w : world) :
  let cp := git (events w) ["branch"; "--format=%(refname:short)"] in
  (returncode cp <> 0%Z -> (list_local_branches git w).1 = Returned []) /\
  (forall names,
      returncode cp = 0%Z ->
      stdout cp = Sample.unlines names ->
      Forall (fun b => Py.nonempty b = true /\ word b = true) names ->
      (list_local_branches git w).1 = Returned names).
Proof.
  intros cp. unfold list_local_branches, bind, run_git. cbn [events stdin fst]. fold cp. split.
  - intros H. apply Z.eqb_neq in H. now rewrite H.
  - intros names H E Hn. apply Z.eqb_eq in H. rewrite H, E. cbn [negb fst ret].
    rewrite splitlines_unlines.
    + now rewrite (strip_names _ Hn).
    + eapply List.Forall_impl; [| exact Hn]. intros b [_ Hb]. now apply word_text_line.
Qed.

(** [list_remote_branches] gives no branch when [git ls-remote] fails, and
    gives back the branch names of the lines [git ls-remote --heads]
    printed, each an object name, a TAB and [refs/heads/] with the name,
    for object names and branch names made of printable ASCII characters
    other than the space. *)
Theorem list_remote_branches_reads_heads (remote : string) (w : world) :
  let cp := git (events w) ["ls-remote"; "--heads"; remote] in
  (returncode cp <> 0%Z -> (list_remote_branches git remote w).1 = Returned []) /\
  (forall heads,
      returncode cp = 0%Z ->
      stdout cp = Sample.unlines (List.map head_line heads) ->
      Forall (fun h => Py.nonempty h.1 = true /\ word h.1 = true /\ word h.2 = true)
             heads ->
      (list_remote_branches git remote w).1 = Returned (List.map snd heads)).
Proof.
  intros cp. unfold list_remote_branches, bind, run_git. cbn [events stdin fst]. fold cp. split.
  - intros H. apply Z.eqb_neq in H. now rewrite H.
  - intros heads H E Hh. apply Z.eqb_eq in H. rewrite H, E. cbn [negb fst ret].
    rewrite splitlines_unlines.
    + f_equal. clear E. induction Hh as [|[sha b] l (Hn & Hs & Hb) _ IH]; [reflexivity |].
      cbn [List.map flat_map snd]. rewrite (remote_head_line sha b Hn Hs Hb), IH. reflexivity.
    + apply Forall_map. eapply List.Forall_impl; [| exact Hh].
      intros h (_ & H1 & H2). now apply head_line_text.
Qed.

End Listings.
